(** * toot: the [post] command (toot/cli/post.py)

    A shallow embedding of the command that posts a status: the text
    resolver, the scheduling resolver, the media uploader, the processing
    waiter and the submitter, followed by the properties checked against
    the specification.

    Python values are modelled as follows.
    - A [str] is held as the bytes of its UTF-8 encoding, in a [string].
    - [Optional[str]] is [option string], [Optional[int]] is [option Z];
      truthiness ([if x:], [not x]) is written out by [truthy_str],
      [truthy_int] and [truthy_list].
    - An exception is a value of [exn]; a computation returns an [outcome]
      together with the world it leaves behind, so the effects performed
      before a [raise] stay visible.
    - The system clock is a count of microseconds (the resolution of
      [datetime]); [time()] reads it, so [start_time + timeout] becomes
      [start_time + timeout * US_PER_SECOND].  Rounding of the float that
      [time()] returns is not modelled.
    - Everything the command cannot decide itself (what the terminal, the
      editor and the server answer, how long a blocking call takes) is read
      from an oracle [Env].  The collaborators are taken to answer: a call
      of the API or of the terminal that fails or never returns, and an
      answer that lacks the "id" or "url" entry of a media record, are
      outside the model, and so is every property that would need them. *)

From Stdlib Require Import ZArith List String Ascii Bool Lia DecimalString.
Import ListNotations.
Local Open Scope string_scope.
Local Open Scope list_scope.
Local Open Scope Z_scope.

(** ** Python values *)

Module Py.

Inductive exn : Type :=
| ClickException (message : string)
| IndexError
| KeyError (key : string)
| ValueError (message : string)
| OverflowError.

(** [Ok] is a normal return, [Raise] an exception that propagates,
    [Diverge] a loop that was cut off by its fuel. *)
Inductive outcome (A : Type) : Type :=
| Ok (a : A)
| Raise (e : exn)
| Diverge.
Arguments Ok {A} a.
Arguments Raise {A} e.
Arguments Diverge {A}.

Definition truthy_str (o : option string) : bool :=
  match o with
  | Some (String _ _) => true
  | _ => false
  end.

Definition truthy_int (o : option Z) : bool :=
  match o with
  | Some n => negb (n =? 0)
  | None => false
  end.

Definition truthy_list {A : Type} (l : list A) : bool :=
  match l with
  | [] => false
  | _ :: _ => true
  end.

(** The string held by an [Optional[str]] known to be truthy. *)
Definition str_of (o : option string) : string :=
  match o with
  | Some s => s
  | None => EmptyString
  end.

(** [x or d] on sequences. *)
Definition py_or {A : Type} (l d : list A) : list A :=
  if truthy_list l then l else d.

Definition len {A : Type} (l : list A) : Z := Z.of_nat (List.length l).

(** The string whose UTF-8 bytes are [bytes]. *)
Definition utf8 (bytes : list Z) : string :=
  string_of_list_ascii (map (fun b => ascii_of_N (Z.to_N b)) bytes).

(** The characters for which [str.isspace] holds, each as its UTF-8
    encoding: TAB..CR, FS..US, the blank, U+0085, U+00A0, U+1680,
    U+2000..U+200A, U+2028, U+2029, U+202F, U+205F and U+3000. *)
Definition whitespace : list string :=
  [ utf8 [9]; utf8 [10]; utf8 [11]; utf8 [12]; utf8 [13];
    utf8 [28]; utf8 [29]; utf8 [30]; utf8 [31]; utf8 [32];
    utf8 [194; 133]; utf8 [194; 160]; utf8 [225; 154; 128];
    utf8 [226; 128; 128]; utf8 [226; 128; 129]; utf8 [226; 128; 130];
    utf8 [226; 128; 131]; utf8 [226; 128; 132]; utf8 [226; 128; 133];
    utf8 [226; 128; 134]; utf8 [226; 128; 135]; utf8 [226; 128; 136];
    utf8 [226; 128; 137]; utf8 [226; 128; 138]; utf8 [226; 128; 168];
    utf8 [226; 128; 169]; utf8 [226; 128; 175]; utf8 [226; 129; 159];
    utf8 [227; 128; 128] ].

(** [c.isspace()] for a single character [c], given by its encoding. *)
Definition is_space (c : string) : bool := existsb (String.eqb c) whitespace.

(** [s.lstrip()]: leading whitespace characters, of one, two or three
    bytes, are dropped one after the other. *)
Fixpoint lstrip (s : string) : string :=
  match s with
  | EmptyString => EmptyString
  | String a s1 =>
      if is_space (String a EmptyString) then lstrip s1
      else
        match s1 with
        | EmptyString => s
        | String b s2 =>
            if is_space (String a (String b EmptyString)) then lstrip s2
            else
              match s2 with
              | EmptyString => s
              | String c s3 =>
                  if is_space (String a (String b (String c EmptyString)))
                  then lstrip s3
                  else s
              end
        end
  end.

(** [s.rstrip()]: the stripped rest of the string is extended to the left
    by one byte at a time; whenever what has been kept so far is exactly
    one whitespace character, it is dropped. *)
Fixpoint rstrip (s : string) : string :=
  match s with
  | EmptyString => EmptyString
  | String c s' =>
      let r := rstrip s' in
      if is_space (String c r) then EmptyString else String c r
  end.

Definition strip (s : string) : string := lstrip (rstrip s).

(** [str(n)] for an [int]. *)
Definition str_int (n : Z) : string := NilZero.string_of_int (Z.to_int n).

Fixpoint zeros (k : nat) : string :=
  match k with
  | O => EmptyString
  | S k' => String "0" (zeros k')
  end.

(** ["%0<width>d" % n] for [0 <= n]. *)
Definition zfill (width : nat) (n : Z) : string :=
  let s := str_int n in
  (zeros (width - String.length s) ++ s)%string.

(** [d[key]] on a JSON object with string values. *)
Fixpoint dict_get (d : list (string * string)) (key : string) : option string :=
  match d with
  | [] => None
  | (k, v) :: d' => if String.eqb k key then Some v else dict_get d' key
  end.

End Py.
Import Py.

(** ** [datetime] and [timedelta]

    An aware or naive [datetime] is held as the number of microseconds
    between 0001-01-01T00:00:00 and its wall-clock reading, with its UTC
    offset (in seconds) when it is aware.  The calendar fields are
    recovered with the standard library's own day-number algorithm. *)

Module Datetime.

Definition US_PER_SECOND : Z := 1000000.
Definition US_PER_DAY : Z := 86400 * US_PER_SECOND.

(** [date.max.toordinal()], the ordinal of 9999-12-31. *)
Definition MAXORDINAL : Z := 3652059.
(** [date(1970, 1, 1).toordinal()]. *)
Definition EPOCH_ORDINAL : Z := 719163.
Definition EPOCH_TICKS : Z := (EPOCH_ORDINAL - 1) * US_PER_DAY.

Definition DI400Y : Z := 146097.
Definition DI100Y : Z := 36524.
Definition DI4Y : Z := 1461.

Definition DAYS_IN_MONTH (month : Z) : Z :=
  nth (Z.to_nat month) [0; 31; 28; 31; 30; 31; 30; 31; 31; 30; 31; 30; 31] 0.

Definition DAYS_BEFORE_MONTH (month : Z) : Z :=
  nth (Z.to_nat month) [0; 0; 31; 59; 90; 120; 151; 181; 212; 243; 273; 304; 334] 0.

Definition b2z (b : bool) : Z := if b then 1 else 0.

(** [_ord2ymd]: ordinal (0001-01-01 is day 1) to (year, month, day). *)
Definition ord2ymd (ordinal : Z) : Z * Z * Z :=
  let n := ordinal - 1 in
  let n400 := n / DI400Y in
  let n := n mod DI400Y in
  let year := n400 * 400 + 1 in
  let n100 := n / DI100Y in
  let n := n mod DI100Y in
  let n4 := n / DI4Y in
  let n := n mod DI4Y in
  let n1 := n / 365 in
  let n := n mod 365 in
  let year := year + n100 * 100 + n4 * 4 + n1 in
  if (n1 =? 4) || (n100 =? 4) then (year - 1, 12, 31)
  else
    let leapyear := (n1 =? 3) && (negb (n4 =? 24) || (n100 =? 3)) in
    let month := Z.shiftr (n + 50) 5 in
    let preceding := DAYS_BEFORE_MONTH month + b2z ((2 <? month) && leapyear) in
    if n <? preceding then
      let month := month - 1 in
      let preceding :=
        preceding - (DAYS_IN_MONTH month + b2z ((month =? 2) && leapyear)) in
      (year, month, n - preceding + 1)
    else (year, month, n - preceding + 1).

Record datetime : Type := {
  ticks : Z;
  utcoffset : option Z
}.

Record timedelta : Type := { td_us : Z }.

(** [datetime.min <= dt <= datetime.max]. *)
Definition in_range (t : Z) : bool :=
  (0 <=? t) && (t <? MAXORDINAL * US_PER_DAY).

(** [timedelta(seconds=s)]: the day count is limited to 999999999 in
    magnitude. *)
Definition timedelta_seconds (s : Z) : outcome timedelta :=
  let days := s / 86400 in
  if (-999999999 <=? days) && (days <=? 999999999)
  then Ok {| td_us := s * US_PER_SECOND |}
  else Raise OverflowError.

(** [dt + delta]. *)
Definition add (dt : datetime) (delta : timedelta) : outcome datetime :=
  let t := ticks dt + td_us delta in
  if in_range t then Ok {| ticks := t; utcoffset := utcoffset dt |}
  else Raise OverflowError.

(** [datetime.now(timezone.utc)] when the system clock reads [clock]
    microseconds after the Unix epoch. *)
Definition now_utc (clock : Z) : outcome datetime :=
  let t := clock + EPOCH_TICKS in
  if in_range t then Ok {| ticks := t; utcoffset := Some 0 |}
  else Raise (ValueError "year is out of range").

Definition microsecond (dt : datetime) : Z := ticks dt mod US_PER_SECOND.

(** [dt.replace(microsecond=0)]. *)
Definition replace_microsecond_0 (dt : datetime) : datetime :=
  {| ticks := ticks dt - microsecond dt; utcoffset := utcoffset dt |}.

Definition toordinal (dt : datetime) : Z := ticks dt / US_PER_DAY + 1.
Definition second_of_day (dt : datetime) : Z :=
  (ticks dt mod US_PER_DAY) / US_PER_SECOND.
Definition hour (dt : datetime) : Z := second_of_day dt / 3600.
Definition minute (dt : datetime) : Z := (second_of_day dt mod 3600) / 60.
Definition second (dt : datetime) : Z := second_of_day dt mod 60.

Definition format_date (sep : string) (dt : datetime) : string :=
  let '(y, m, d) := ord2ymd (toordinal dt) in
  (zfill 4 y ++ sep ++ zfill 2 m ++ sep ++ zfill 2 d)%string.

Definition format_time (dt : datetime) : string :=
  (zfill 2 (hour dt) ++ ":" ++ zfill 2 (minute dt) ++ ":"
     ++ zfill 2 (second dt))%string.

(** [_format_offset]: "+HH:MM" (with ":SS" when the offset has seconds);
    [sep] is ":" for [isoformat] and empty for [%z]. *)
Definition format_offset (sep : string) (off : option Z) : string :=
  match off with
  | None => EmptyString
  | Some o =>
      let sign := if o <? 0 then "-" else "+" in
      let a := Z.abs o in
      let ss := a mod 60 in
      (sign ++ zfill 2 (a / 3600) ++ sep ++ zfill 2 ((a mod 3600) / 60)
         ++ (if (ss =? 0)%Z then EmptyString else sep ++ zfill 2 ss))%string
  end.

(** [dt.isoformat()]. *)
Definition isoformat (dt : datetime) : string :=
  (format_date "-" dt ++ "T" ++ format_time dt
     ++ (if (microsecond dt =? 0)%Z then EmptyString
         else "." ++ zfill 6 (microsecond dt))
     ++ format_offset ":" (utcoffset dt))%string.

(** [datetime.strftime(dt, "%Y-%m-%d %H:%M:%S%z")]; the C library's [%Y]
    does not pad the year. *)
Definition strftime_ymd_hms_z (dt : datetime) : string :=
  let '(y, m, d) := ord2ymd (toordinal dt) in
  (str_int y ++ "-" ++ zfill 2 m ++ "-" ++ zfill 2 d ++ " " ++ format_time dt
     ++ format_offset EmptyString (utcoffset dt))%string.

End Datetime.
Import Datetime.

(** ** The world the command runs in *)

(** A [click.File] handle; only its [name] is read by the command. *)
Record File : Type := { name : string }.

(** An uploaded media record, the JSON object [{"id": ..., "url": ...}];
    both entries are taken to be there, the URL possibly [null]. *)
Record Media : Type := {
  media_id : string;
  media_url : option string
}.

(** The arguments of [api.post_status]. *)
Record PostRequest : Type := {
  req_status : option string;
  req_visibility : string;
  req_media_ids : list string;
  req_sensitive : bool;
  req_spoiler_text : option string;
  req_in_reply_to_id : option string;
  req_language : option string;
  req_scheduled_at : option string;
  req_content_type : option string;
  req_poll_options : list string;
  req_poll_expires_in : Z;
  req_poll_multiple : bool;
  req_poll_hide_totals : bool
}.

(** The HTTP response of [api.post_status]: its body, and the body parsed
    as a JSON object. *)
Record Response : Type := {
  resp_text : string;
  resp_json : list (string * string)
}.

(** [ctx.app] and [ctx.user], passed unchanged to every API call. *)
Record Context : Type := {
  app : string;
  user : string
}.

(** What the command does to the outside, in the order it does it. *)
Inductive event : Type :=
| Echo (message : string)
| StdinRead
| EditorInput (editor : string) (initial_text : option string)
| MultilineInput
| UploadMedia (a u : string) (file : File) (description : option string)
    (thumbnail : option File)
| GetMedia (a u : string) (id : string)
| PostStatus (a u : string) (request : PostRequest)
| Sleep (seconds : Z)
| DeleteTmpStatusFile.

Record World : Type := {
  clock : Z;                 (* microseconds since the Unix epoch *)
  trace : list event;        (* oldest event first *)
  tmp_status_file : bool     (* does the scratch file exist? *)
}.

(** The answers of the terminal, the user and the server.  Each may depend
    on everything that happened so far. *)
Record Env : Type := {
  stdin_isatty : bool;
  stdin_read : World -> string;
  editor_result : World -> string -> option string -> string;
  multiline_result : World -> string;
  upload_media_result :
    World -> string -> string -> File -> option string -> option File -> Media;
  get_media_result : World -> string -> string -> string -> Media;
  post_status_result : World -> string -> string -> PostRequest -> Response;
  (* microseconds a blocking call started in this world takes *)
  call_latency : World -> N;
  (* microseconds by which a sleep started in this world oversleeps *)
  sleep_overrun : World -> N;
  (* toot.utils.datetime.parse_datetime *)
  parse_datetime : string -> outcome datetime;
  (* toot.utils.EOF_KEY, the keystroke that ends interactive input *)
  EOF_KEY : string
}.

(** The parameters of the command, as click hands them over. *)
Record Params : Type := {
  text : option string;
  media : list File;
  description : list string;
  thumbnail : list File;
  visibility : string;
  sensitive : bool;
  spoiler_text : option string;
  reply_to : option string;
  language : option string;
  editor : option string;
  scheduled_at : option string;
  scheduled_in : option Z;
  content_type : option string;
  poll_option : list string;
  poll_expires_in : Z;
  poll_multiple : bool;
  poll_hide_totals : bool;
  json : bool
}.

(** ** Computations: state passing with exceptions *)

Definition M (A : Type) : Type := World -> outcome A * World.

Definition ret {A : Type} (a : A) : M A := fun w => (Ok a, w).

Definition raise {A : Type} (e : exn) : M A := fun w => (Raise e, w).

Definition diverge {A : Type} : M A := fun w => (Diverge, w).

Definition bind {A B : Type} (m : M A) (k : A -> M B) : M B :=
  fun w =>
    match m w with
    | (Ok a, w') => k a w'
    | (Raise e, w') => (Raise e, w')
    | (Diverge, w') => (Diverge, w')
    end.

Definition lift {A : Type} (o : outcome A) : M A := fun w => (o, w).

Notation "x <- m ;; k" := (bind m (fun x => k))
  (at level 61, m at next level, right associativity).
Notation "m ;;; k" := (bind m (fun _ => k))
  (at level 61, right associativity).

Definition log (e : event) (w : World) : World :=
  {| clock := clock w; trace := trace w ++ [e];
     tmp_status_file := tmp_status_file w |}.

Definition advance (d : Z) (w : World) : World :=
  {| clock := clock w + d; trace := trace w;
     tmp_status_file := tmp_status_file w |}.

Definition set_tmp (b : bool) (w : World) : World :=
  {| clock := clock w; trace := trace w; tmp_status_file := b |}.

Section Program.

Variable env : Env.

(** *** Primitives *)

(** A blocking call: it is recorded, takes its latency, and answers. *)
Definition blocking {A : Type} (e : event) (answer : World -> A) : M A :=
  fun w => (Ok (answer w), advance (Z.of_N (call_latency env w)) (log e w)).

Definition echo (message : string) : M unit :=
  fun w => (Ok tt, log (Echo message) w).

(** [time()], in microseconds. *)
Definition time : M Z := fun w => (Ok (clock w), w).

(** [sleep(seconds)]: suspends for at least [seconds]. *)
Definition sleep (seconds : Z) : M unit :=
  fun w =>
    (Ok tt,
     advance (seconds * US_PER_SECOND + Z.of_N (sleep_overrun env w))
       (log (Sleep seconds) w)).

Definition isatty : M bool := ret (stdin_isatty env).

Definition sys_stdin_read : M string := blocking StdinRead (stdin_read env).

(** Modelled from the spec: [toot.utils.editor_input] is not part of the
    sources at hand.  It launches the external editor "pre-seeded with
    existing text" on the scratch file and returns what the user left
    there; the scratch file exists afterwards. *)
Definition editor_input (editor : string) (text : option string) : M string :=
  fun w =>
    let '(r, w') :=
      blocking (EditorInput editor text)
        (fun w => editor_result env w editor text) w in
    (r, set_tmp true w').

(** Modelled from the spec: [toot.utils.multiline_input] is not part of
    the sources at hand.  It prompts "for free-form multi-line interactive
    input" and returns it. *)
Definition multiline_input : M string :=
  blocking MultilineInput (multiline_result env).

(** Modelled from the spec: [toot.utils.delete_tmp_status_file] is not
    part of the sources at hand.  It deletes "the scratch file used for
    interactive/editor composition". *)
Definition delete_tmp_status_file : M unit :=
  fun w => (Ok tt, set_tmp false (log DeleteTmpStatusFile w)).

Definition api_upload_media (a u : string) (file : File)
    (description : option string) (thumbnail : option File) : M Media :=
  blocking (UploadMedia a u file description thumbnail)
    (fun w => upload_media_result env w a u file description thumbnail).

Definition api_get_media (a u : string) (id : string) : M Media :=
  blocking (GetMedia a u id) (fun w => get_media_result env w a u id).

Definition api_post_status (a u : string) (request : PostRequest) : M Response :=
  blocking (PostStatus a u request)
    (fun w => post_status_result env w a u request).

(** [l[idx]] for [0 <= idx]. *)
Definition getitem {A : Type} (l : list A) (idx : nat) : M A :=
  match nth_error l idx with
  | Some x => ret x
  | None => raise IndexError
  end.

(** *** [_get_status_text] *)

Definition _get_status_text (text : option string) (editor : option string)
    (media : list File) : M (option string) :=
  isatty <- isatty ;;
  text <- (if negb (truthy_str text) && negb isatty
           then s <- sys_stdin_read ;; ret (Some (rstrip s))
           else ret text) ;;
  if isatty then
    if truthy_str editor then
      s <- editor_input (str_of editor) text ;; ret (Some s)
    else if negb (truthy_str text) && negb (truthy_list media) then
      echo ("Write or paste your toot. Press " ++ EOF_KEY env
              ++ " to post it.")%string ;;;
      s <- multiline_input ;; ret (Some s)
    else ret text
  else ret text.

(** *** [_get_scheduled_at] *)

Definition _get_scheduled_at (scheduled_at : option string)
    (scheduled_in : option Z) : M (option string) :=
  if truthy_str scheduled_at then ret scheduled_at
  else
    match scheduled_in with
    | Some seconds =>
        if truthy_int scheduled_in then
          t <- time ;;
          now <- lift (now_utc t) ;;
          delta <- lift (timedelta_seconds seconds) ;;
          scheduled_at <- lift (add now delta) ;;
          ret (Some (isoformat (replace_microsecond_0 scheduled_at)))
        else ret None
    | None => ret None
    end.

(** *** [_do_upload], [_upload_media] *)

Definition _do_upload (a u : string) (file : File)
    (description : option string) (thumbnail : option File) : M Media :=
  echo ("Uploading media: " ++ name file)%string ;;;
  api_upload_media a u file description thumbnail.

(** The body of [for idx, file in enumerate(media)], from index [idx] on. *)
Fixpoint upload_loop (a u : string) (idx : nat) (media : list File)
    (descriptions : list string) (thumbnails : list File)
    (uploaded_media : list Media) : M (list Media) :=
  match media with
  | [] => ret uploaded_media
  | file :: rest =>
      description <-
        (if Z.of_nat idx <? len descriptions
         then d <- getitem descriptions idx ;; ret (Some (strip d))
         else ret None) ;;
      thumbnail <-
        (if Z.of_nat idx <? len thumbnails
         then t <- getitem thumbnails idx ;; ret (Some t)
         else ret None) ;;
      result <- _do_upload a u file description thumbnail ;;
      upload_loop a u (S idx) rest descriptions thumbnails
        (uploaded_media ++ [result])
  end.

(** *** [_wait_until_processed], [_wait_until_all_processed] *)

Definition timeout_message (timeout : Z) : string :=
  ("Media not processed by server after " ++ str_int timeout
     ++ " seconds. Aborting.")%string.

(** [while not media["url"]: ...], cut off after [fuel] rounds. *)
Fixpoint wait_loop (fuel : nat) (a u : string) (media : Media)
    (start_time timeout : Z) : M unit :=
  if truthy_str (media_url media) then ret tt
  else
    match fuel with
    | O => diverge
    | S fuel' =>
        sleep 1 ;;;
        t <- time ;;
        if t >? start_time + timeout * US_PER_SECOND
        then raise (ClickException (timeout_message timeout))
        else
          media <- api_get_media a u (media_id media) ;;
          wait_loop fuel' a u media start_time timeout
    end.

Definition _wait_until_processed (fuel : nat) (a u : string) (media : Media)
    (start_time timeout : Z) : M unit :=
  if truthy_str (media_url media) then ret tt
  else
    media <- api_get_media a u (media_id media) ;;
    wait_loop fuel a u media start_time timeout.

(** [for media in uploaded_media: _wait_until_processed(...)]. *)
Fixpoint wait_each (fuel : nat) (a u : string) (uploaded_media : list Media)
    (start_time timeout : Z) : M unit :=
  match uploaded_media with
  | [] => ret tt
  | media :: rest =>
      _wait_until_processed fuel a u media start_time timeout ;;;
      wait_each fuel a u rest start_time timeout
  end.

Definition _wait_until_all_processed (fuel : nat) (a u : string)
    (uploaded_media : list Media) : M unit :=
  if forallb (fun m => truthy_str (media_url m)) uploaded_media then ret tt
  else
    start_time <- time ;;
    let timeout := 60 in
    echo "Waiting for media to finish processing..." ;;;
    wait_each fuel a u uploaded_media start_time timeout.

Definition _upload_media (fuel : nat) (a u : string) (media : list File)
    (description : list string) (thumbnail : list File) : M (list string) :=
  let media := py_or media [] in
  let descriptions := py_or description [] in
  let thumbnails := py_or thumbnail [] in
  uploaded_media <- upload_loop a u 0 media descriptions thumbnails [] ;;
  _wait_until_all_processed fuel a u uploaded_media ;;;
  ret (map media_id uploaded_media).

(** *** [post] *)

Definition post (fuel : nat) (ctx : Context) (p : Params) : M unit :=
  isatty <- isatty ;;
  if truthy_str (editor p) && negb isatty
  then raise (ClickException "Cannot run editor if not in tty.")
  else
  if len (media p) >? 4
  then raise (ClickException "Cannot attach more than 4 files.")
  else
  media_ids <- _upload_media fuel (app ctx) (user ctx) (media p)
                 (description p) (thumbnail p) ;;
  status_text <- _get_status_text (text p) (editor p) (media p) ;;
  scheduled_at <- _get_scheduled_at (scheduled_at p) (scheduled_in p) ;;
  if negb (truthy_str status_text) && negb (truthy_list media_ids)
  then raise (ClickException "You must specify either text or media to post.")
  else
  response <- api_post_status (app ctx) (user ctx)
    {| req_status := status_text;
       req_visibility := visibility p;
       req_media_ids := media_ids;
       req_sensitive := sensitive p;
       req_spoiler_text := spoiler_text p;
       req_in_reply_to_id := reply_to p;
       req_language := language p;
       req_scheduled_at := scheduled_at;
       req_content_type := content_type p;
       req_poll_options := poll_option p;
       req_poll_expires_in := poll_expires_in p;
       req_poll_multiple := poll_multiple p;
       req_poll_hide_totals := poll_hide_totals p |} ;;
  (if json p then echo (resp_text response)
   else
     let status := resp_json response in
     match dict_get status "scheduled_at" with
     | Some s =>
         scheduled_at <- lift (parse_datetime env s) ;;
         let scheduled_at := strftime_ymd_hms_z scheduled_at in
         echo ("Toot scheduled for: " ++ scheduled_at)%string
     | None =>
         match dict_get status "url" with
         | Some url => echo ("Toot posted: " ++ url)%string
         | None => raise (KeyError "url")
         end
     end) ;;;
  delete_tmp_status_file.

End Program.

(** ** Observations on traces *)

Definition is_network (e : event) : bool :=
  match e with
  | UploadMedia _ _ _ _ _ | GetMedia _ _ _ | PostStatus _ _ _ => true
  | _ => false
  end.

Definition is_upload (e : event) : bool :=
  match e with UploadMedia _ _ _ _ _ => true | _ => false end.

Definition is_get_media (e : event) : bool :=
  match e with GetMedia _ _ _ => true | _ => false end.

Definition is_post_status (e : event) : bool :=
  match e with PostStatus _ _ _ => true | _ => false end.

Definition is_sleep (e : event) : bool :=
  match e with Sleep _ => true | _ => false end.

Definition is_delete (e : event) : bool :=
  match e with DeleteTmpStatusFile => true | _ => false end.

(** Events of the terminal: printing and reading, no network, no sleep. *)
Definition is_terminal (e : event) : bool :=
  match e with
  | Echo _ | StdinRead | EditorInput _ _ | MultilineInput => true
  | _ => false
  end.

Definition network_calls (w : World) : list event := filter is_network (trace w).
Definition uploads (w : World) : list event := filter is_upload (trace w).
Definition post_status_calls (w : World) : list event :=
  filter is_post_status (trace w).
Definition deletions (w : World) : list event := filter is_delete (trace w).
Definition sleeps (w : World) : Z :=
  Z.of_nat (List.length (filter is_sleep (trace w))).

(** [extends ok w w']: [w'] is [w] after some time has passed and some
    events, all accepted by [ok], were added; when deleting the scratch
    file is not among them, a scratch file that exists stays. *)
Definition extends (ok : event -> bool) (w w' : World) : Prop :=
  clock w <= clock w'
  /\ (exists evs, trace w' = trace w ++ evs /\ forallb ok evs = true)
  /\ (ok DeleteTmpStatusFile = false ->
      tmp_status_file w = true -> tmp_status_file w' = true).

(** A computation all of whose runs extend the world by [ok] events. *)
Definition emits {A : Type} (ok : event -> bool) (m : M A) : Prop :=
  forall w, extends ok w (snd (m w)).

(** The record [m] is never processed: it has no URL, and the server keeps
    answering a re-fetch of its id with the same id and no URL. *)
Definition stuck (env : Env) (m : Media) : Prop :=
  truthy_str (media_url m) = false
  /\ forall w a u,
       media_id (get_media_result env w a u (media_id m)) = media_id m
       /\ truthy_str (media_url (get_media_result env w a u (media_id m))) = false.

(** The pairing the uploader is specified to make: entry [i] of the media
    list with [description[i]], stripped, and [thumbnail[i]], each absent
    when the index is outside its list. *)
Fixpoint spec_pairing (a u : string) (idx : nat) (media : list File)
    (description : list string) (thumbnail : list File) : list event :=
  match media with
  | [] => []
  | file :: rest =>
      UploadMedia a u file (option_map strip (nth_error description idx))
        (nth_error thumbnail idx)
      :: spec_pairing a u (S idx) rest description thumbnail
  end.

(** The events of the processing waiter and of the uploader. *)
Definition is_wait_event (e : event) : bool :=
  match e with
  | Echo _ | GetMedia _ _ _ | Sleep _ => true
  | _ => false
  end.

Definition is_upload_event (e : event) : bool :=
  match e with
  | Echo _ | UploadMedia _ _ _ _ _ => true
  | _ => false
  end.

(** [within_budget w0 w]: since [w0], every sleep has taken its second. *)
Definition within_budget (w0 w : World) : Prop :=
  sleeps w0 <= sleeps w
  /\ clock w0 + US_PER_SECOND * (sleeps w - sleeps w0) <= clock w.

(** The outcome of a wait that ran inside the budget opened at [w0]. *)
Definition settled (w0 : World) (r : outcome unit) (w' : World) : Prop :=
  within_budget w0 w'
  /\ (r = Ok tt /\ sleeps w' - sleeps w0 <= 60
      \/ r = Raise (ClickException (timeout_message 60))
         /\ clock w0 + 60 * US_PER_SECOND < clock w'
         /\ sleeps w' - sleeps w0 <= 61).

(** Every event but the deletion of the scratch file. *)
Definition no_delete (e : event) : bool := negb (is_delete e).

(** [cleans m]: a run of [m] that returns has deleted the scratch file as
    its last action; a run that does not return has not deleted it. *)
Definition cleans (m : M unit) : Prop :=
  forall w,
    match m w with
    | (Ok _, w') =>
        tmp_status_file w' = false
        /\ exists evs, trace w' = trace w ++ evs ++ [DeleteTmpStatusFile]
    | (_, w') => extends no_delete w w'
    end.

(** The status text an invocation resolves to. *)
Definition resolved_text (env : Env) (p : Params) (w : World) : option string :=
  match fst (_get_status_text env (text p) (editor p) (media p) w) with
  | Ok t => t
  | _ => None
  end.

(** Every event but a call of the status-creation API that carries a
    scheduled time. *)
Definition unscheduled (e : event) : bool :=
  match e with
  | PostStatus _ _ r =>
      match req_scheduled_at r with
      | Some _ => false
      | None => true
      end
  | _ => true
  end.

(** ** Concrete runs

    A terminal, a user and a server with fixed answers, used to run the
    command on explicit inputs: the editor and the prompt return
    [typed], standard input is empty, an upload answers with the file name
    as id and no URL, a re-fetch answers with a URL once the clock has
    reached [ready_at] (never, when that is absent), calls take no time and
    sleeps do not oversleep. *)

Definition fixed_env (tty : bool) (typed : string) (ready_at : option Z) : Env := {|
  stdin_isatty := tty;
  stdin_read := fun _ => EmptyString;
  editor_result := fun _ _ _ => typed;
  multiline_result := fun _ => typed;
  upload_media_result := fun _ _ _ f _ _ =>
    {| media_id := name f; media_url := None |};
  get_media_result := fun w _ _ id =>
    {| media_id := id;
       media_url := match ready_at with
                    | Some t => if t <=? clock w then Some "https://media/ok"
                                else None
                    | None => None
                    end |};
  post_status_result := fun _ _ _ _ =>
    {| resp_text := "{}"; resp_json := [("url", "https://status/1")] |};
  call_latency := fun _ => 0%N;
  sleep_overrun := fun _ => 0%N;
  parse_datetime := fun _ => Raise (ValueError "not a datetime");
  EOF_KEY := "Ctrl-D"
|}.

(** 2024-01-01T00:00:00.5 UTC, nothing done yet, no scratch file. *)
Definition new_year : World :=
  {| clock := 1704067200500000; trace := []; tmp_status_file := false |}.

Definition some_ctx : Context := {| app := "app"; user := "user" |}.

Definition params (text : option string) (media : list File)
    (description : list string) (editor : option string)
    (scheduled_at : option string) (scheduled_in : option Z) : Params := {|
  text := text; media := media; description := description; thumbnail := [];
  visibility := "public"; sensitive := false; spoiler_text := None;
  reply_to := None; language := None; editor := editor;
  scheduled_at := scheduled_at; scheduled_in := scheduled_in;
  content_type := None; poll_option := []; poll_expires_in := 86400;
  poll_multiple := false; poll_hide_totals := false; json := false
|}.

(** ** The paths through [post]

    Names for the request the command assembles and for its last step, and
    the list of the ways a run of the command can go. *)

(** The request [post] hands to [api.post_status]. *)
Definition request_of (p : Params) (media_ids : list string)
    (status_text scheduled_at : option string) : PostRequest :=
  {| req_status := status_text;
     req_visibility := visibility p;
     req_media_ids := media_ids;
     req_sensitive := sensitive p;
     req_spoiler_text := spoiler_text p;
     req_in_reply_to_id := reply_to p;
     req_language := language p;
     req_scheduled_at := scheduled_at;
     req_content_type := content_type p;
     req_poll_options := poll_option p;
     req_poll_expires_in := poll_expires_in p;
     req_poll_multiple := poll_multiple p;
     req_poll_hide_totals := poll_hide_totals p |}.

(** The end of [post], from [if json:] on: the result is printed and the
    scratch file deleted. *)
Definition report (env : Env) (p : Params) (response : Response) : M unit :=
  (if json p then echo (resp_text response)
   else
     let status := resp_json response in
     match dict_get status "scheduled_at" with
     | Some s =>
         scheduled_at <- lift (parse_datetime env s) ;;
         let scheduled_at := strftime_ymd_hms_z scheduled_at in
         echo ("Toot scheduled for: " ++ scheduled_at)%string
     | None =>
         match dict_get status "url" with
         | Some url => echo ("Toot posted: " ++ url)%string
         | None => raise (KeyError "url")
         end
     end) ;;;
  delete_tmp_status_file.

(** [post_path env fuel ctx p w r w']: the run of the command from [w] ends
    with outcome [r] in world [w'], along one of its seven paths. *)
Inductive post_path (env : Env) (fuel : nat) (ctx : Context) (p : Params)
    (w : World) : outcome unit -> World -> Prop :=
| path_no_tty :
    truthy_str (editor p) && negb (stdin_isatty env) = true ->
    post_path env fuel ctx p w
      (Raise (ClickException "Cannot run editor if not in tty.")) w
| path_too_many :
    truthy_str (editor p) && negb (stdin_isatty env) = false ->
    4 < len (media p) ->
    post_path env fuel ctx p w
      (Raise (ClickException "Cannot attach more than 4 files.")) w
| path_upload_raised (e : exn) (w1 : World) :
    truthy_str (editor p) && negb (stdin_isatty env) = false ->
    len (media p) <= 4 ->
    _upload_media env fuel (app ctx) (user ctx) (media p) (description p)
      (thumbnail p) w = (Raise e, w1) ->
    post_path env fuel ctx p w (Raise e) w1
| path_upload_diverged (w1 : World) :
    truthy_str (editor p) && negb (stdin_isatty env) = false ->
    len (media p) <= 4 ->
    _upload_media env fuel (app ctx) (user ctx) (media p) (description p)
      (thumbnail p) w = (Diverge, w1) ->
    post_path env fuel ctx p w Diverge w1
| path_schedule_raised (ids : list string) (w1 : World) (t : option string)
    (w2 : World) (e : exn) :
    truthy_str (editor p) && negb (stdin_isatty env) = false ->
    len (media p) <= 4 ->
    _upload_media env fuel (app ctx) (user ctx) (media p) (description p)
      (thumbnail p) w = (Ok ids, w1) ->
    _get_status_text env (text p) (editor p) (media p) w1 = (Ok t, w2) ->
    _get_scheduled_at (scheduled_at p) (scheduled_in p) w2 = (Raise e, w2) ->
    post_path env fuel ctx p w (Raise e) w2
| path_empty (w1 : World) (t : option string) (w2 : World) (s : option string) :
    truthy_str (editor p) && negb (stdin_isatty env) = false ->
    len (media p) <= 4 ->
    _upload_media env fuel (app ctx) (user ctx) (media p) (description p)
      (thumbnail p) w = (Ok [], w1) ->
    _get_status_text env (text p) (editor p) (media p) w1 = (Ok t, w2) ->
    _get_scheduled_at (scheduled_at p) (scheduled_in p) w2 = (Ok s, w2) ->
    truthy_str t = false ->
    post_path env fuel ctx p w
      (Raise (ClickException "You must specify either text or media to post."))
      w2
| path_submitted (ids : list string) (w1 : World) (t : option string)
    (w2 : World) (s : option string) (r : outcome unit) (w' : World) :
    truthy_str (editor p) && negb (stdin_isatty env) = false ->
    len (media p) <= 4 ->
    _upload_media env fuel (app ctx) (user ctx) (media p) (description p)
      (thumbnail p) w = (Ok ids, w1) ->
    _get_status_text env (text p) (editor p) (media p) w1 = (Ok t, w2) ->
    _get_scheduled_at (scheduled_at p) (scheduled_in p) w2 = (Ok s, w2) ->
    truthy_str t = true \/ ids <> [] ->
    report env p
      (post_status_result env w2 (app ctx) (user ctx) (request_of p ids t s))
      (advance (Z.of_N (call_latency env w2))
         (log (PostStatus (app ctx) (user ctx) (request_of p ids t s)) w2))
    = (r, w') ->
    post_path env fuel ctx p w r w'.

(** The events that precede the submission: uploading, waiting, and
    talking to the terminal. *)
Definition is_preparation (e : event) : bool :=
  is_upload_event e || is_wait_event e || is_terminal e.

(** The events of the last step: printing and deleting the scratch file. *)
Definition is_report_event (e : event) : bool :=
  match e with
  | Echo _ | DeleteTmpStatusFile => true
  | _ => false
  end.

(** [env], with a server that answers every status creation with
    [response]. *)
Definition with_response (env : Env) (response : Response) : Env := {|
  stdin_isatty := stdin_isatty env;
  stdin_read := stdin_read env;
  editor_result := editor_result env;
  multiline_result := multiline_result env;
  upload_media_result := upload_media_result env;
  get_media_result := get_media_result env;
  post_status_result := fun _ _ _ _ => response;
  call_latency := call_latency env;
  sleep_overrun := sleep_overrun env;
  parse_datetime := parse_datetime env;
  EOF_KEY := EOF_KEY env
|}.

(** [env], with a server on which every upload is processed at once. *)
Definition with_fast_uploads (env : Env) : Env := {|
  stdin_isatty := stdin_isatty env;
  stdin_read := stdin_read env;
  editor_result := editor_result env;
  multiline_result := multiline_result env;
  upload_media_result := fun _ _ _ f _ _ =>
    {| media_id := name f; media_url := Some "https://media/ok" |};
  get_media_result := get_media_result env;
  post_status_result := post_status_result env;
  call_latency := call_latency env;
  sleep_overrun := sleep_overrun env;
  parse_datetime := parse_datetime env;
  EOF_KEY := EOF_KEY env
|}.

(** [env], with [piped] on standard input. *)
Definition with_stdin (env : Env) (piped : string) : Env := {|
  stdin_isatty := stdin_isatty env;
  stdin_read := fun _ => piped;
  editor_result := editor_result env;
  multiline_result := multiline_result env;
  upload_media_result := upload_media_result env;
  get_media_result := get_media_result env;
  post_status_result := post_status_result env;
  call_latency := call_latency env;
  sleep_overrun := sleep_overrun env;
  parse_datetime := parse_datetime env;
  EOF_KEY := EOF_KEY env
|}.


(** The announcement and the upload call of each file, in order. *)
Fixpoint spec_upload_trace (a u : string) (idx : nat) (media : list File)
    (description : list string) (thumbnail : list File) : list event :=
  match media with
  | [] => []
  | file :: rest =>
      Echo ("Uploading media: " ++ name file)%string
      :: UploadMedia a u file (option_map strip (nth_error description idx))
           (nth_error thumbnail idx)
      :: spec_upload_trace a u (S idx) rest description thumbnail
  end.

(** The characters of [cs], one after the other. *)
Fixpoint join (cs : list string) : string :=
  match cs with
  | [] => EmptyString
  | c :: cs' => (c ++ join cs')%string
  end.

(** [s] consists of whitespace characters only. *)
Definition blank (s : string) : Prop :=
  exists cs, Forall (fun c => In c whitespace) cs /\ s = join cs.

Definition starts_with_space (s : string) : Prop :=
  exists c rest, In c whitespace /\ s = (c ++ rest)%string.

Definition ends_with_space (s : string) : Prop :=
  exists c init, In c whitespace /\ s = (init ++ c)%string.

(** [t] is [d] stripped of surrounding whitespace: [d] is [t] between two
    runs of whitespace, and [t] neither starts nor ends with whitespace. *)
Definition stripped_of (d t : string) : Prop :=
  exists l r,
    d = (l ++ t ++ r)%string /\ blank l /\ blank r
    /\ ~ starts_with_space t /\ ~ ends_with_space t.

(** The world right after the call of the status-creation API. *)
Definition submitted_world (env : Env) (a u : string) (request : PostRequest)
    (w : World) : World :=
  advance (Z.of_N (call_latency env w)) (log (PostStatus a u request) w).

(** ** Basic facts *)

Lemma extends_refl (ok : event -> bool) (w : World) : extends ok w w.
Proof.
  repeat split; [lia | exists []; now rewrite app_nil_r | auto].
Qed.

Lemma extends_trans (ok : event -> bool) (w1 w2 w3 : World) :
  extends ok w1 w2 -> extends ok w2 w3 -> extends ok w1 w3.
Proof.
  intros (Hc1 & (e1 & Ht1 & Hf1) & Hk1) (Hc2 & (e2 & Ht2 & Hf2) & Hk2).
  repeat split; [lia | | auto].
  exists (e1 ++ e2). rewrite Ht2, Ht1, app_assoc, forallb_app, Hf1, Hf2. auto.
Qed.

Lemma extends_weaken (ok ok' : event -> bool) (w w' : World) :
  (forall e, ok e = true -> ok' e = true) ->
  extends ok w w' -> extends ok' w w'.
Proof.
  intros Hsub (Hc & (evs & Ht & Hf) & Hk). repeat split; [lia | | ].
  - exists evs. split; [assumption|].
    rewrite forallb_forall in *. auto.
  - intros Hd. apply Hk. destruct (ok DeleteTmpStatusFile) eqn:E; [|reflexivity].
    apply Hsub in E. congruence.
Qed.

Lemma filter_none {A : Type} (p : A -> bool) (l : list A) :
  (forall x, In x l -> p x = false) -> filter p l = [].
Proof.
  induction l as [|x l IH]; intros H; [reflexivity|]. simpl.
  rewrite (H x) by now left. apply IH. intros y Hy. apply H. now right.
Qed.

Lemma extends_filter (ok p : event -> bool) (w w' : World) :
  (forall e, ok e = true -> p e = false) ->
  extends ok w w' -> filter p (trace w') = filter p (trace w).
Proof.
  intros Hno (_ & (evs & Ht & Hf) & _). rewrite Ht, filter_app.
  rewrite (filter_none p evs); [now rewrite app_nil_r|].
  rewrite forallb_forall in Hf. intros x Hx. apply Hno, Hf, Hx.
Qed.

Lemma extends_log (ok : event -> bool) (e : event) (w : World) :
  ok e = true -> is_delete e = false -> extends ok w (log e w).
Proof.
  intros Hok Hd. repeat split; simpl; [lia | | auto].
  exists [e]. simpl. now rewrite Hok.
Qed.

Lemma extends_advance (ok : event -> bool) (d : Z) (w : World) :
  0 <= d -> extends ok w (advance d w).
Proof.
  intros Hd. repeat split; simpl; [lia | | auto].
  exists []. now rewrite app_nil_r.
Qed.

Lemma bind_ok {A B : Type} (m : M A) (k : A -> M B) (w : World) (x : A)
    (w1 : World) :
  m w = (Ok x, w1) -> bind m k w = k x w1.
Proof. intros E. unfold bind. now rewrite E. Qed.

Lemma bind_raise {A B : Type} (m : M A) (k : A -> M B) (w : World) (e : exn)
    (w1 : World) :
  m w = (Raise e, w1) -> bind m k w = (Raise e, w1).
Proof. intros E. unfold bind. now rewrite E. Qed.

Lemma bind_diverge {A B : Type} (m : M A) (k : A -> M B) (w w1 : World) :
  m w = (Diverge, w1) -> bind m k w = (Diverge, w1).
Proof. intros E. unfold bind. now rewrite E. Qed.

Lemma bind_time {B : Type} (k : Z -> M B) (w : World) :
  bind time k w = k (clock w) w.
Proof. reflexivity. Qed.

Section Emits.

Variable env : Env.
Variable ok : event -> bool.

Lemma emits_ret {A : Type} (a : A) : emits ok (ret a).
Proof. intros w. apply extends_refl. Qed.

Lemma emits_raise {A : Type} (e : exn) : emits ok (@raise A e).
Proof. intros w. apply extends_refl. Qed.

Lemma emits_diverge {A : Type} : emits ok (@diverge A).
Proof. intros w. apply extends_refl. Qed.

Lemma emits_lift {A : Type} (o : outcome A) : emits ok (lift o).
Proof. intros w. apply extends_refl. Qed.

Lemma emits_bind {A B : Type} (m : M A) (k : A -> M B) :
  emits ok m -> (forall a, emits ok (k a)) -> emits ok (bind m k).
Proof.
  intros Hm Hk w. unfold bind. specialize (Hm w).
  destruct (m w) as [[a | e | ] w1]; simpl in Hm; try assumption.
  eapply extends_trans; [exact Hm | apply Hk].
Qed.

Lemma emits_if {A : Type} (b : bool) (m1 m2 : M A) :
  emits ok m1 -> emits ok m2 -> emits ok (if b then m1 else m2).
Proof. now destruct b. Qed.

Lemma emits_blocking {A : Type} (e : event) (answer : World -> A) :
  ok e = true -> is_delete e = false -> emits ok (blocking env e answer).
Proof.
  intros Hok Hd w. unfold blocking. simpl.
  eapply extends_trans; [apply extends_log; eassumption|].
  apply extends_advance. lia.
Qed.

Lemma emits_echo (s : string) : ok (Echo s) = true -> emits ok (echo s).
Proof. intros Hok w. now apply extends_log. Qed.

Lemma emits_time : emits ok time.
Proof. intros w. apply extends_refl. Qed.

Lemma emits_sleep (s : Z) :
  ok (Sleep s) = true -> 0 <= s -> emits ok (sleep env s).
Proof.
  intros Hok Hs w. unfold sleep. simpl.
  eapply extends_trans; [apply extends_log; [eassumption | reflexivity]|].
  apply extends_advance. unfold US_PER_SECOND. lia.
Qed.

End Emits.

(** ** The scheduling resolver *)

Lemma get_scheduled_at_world (sa : option string) (si : option Z) (w : World) :
  snd (_get_scheduled_at sa si w) = w.
Proof.
  unfold _get_scheduled_at.
  destruct (truthy_str sa); [reflexivity|].
  destruct si as [d|]; [|reflexivity].
  destruct (truthy_int (Some d)); [|reflexivity].
  unfold bind, time, lift, ret.
  destruct (now_utc (clock w)); try reflexivity.
  destruct (timedelta_seconds d); try reflexivity.
  destruct (add a a0); reflexivity.
Qed.

Lemma get_scheduled_at_never_diverges (sa : option string) (si : option Z)
    (w : World) :
  fst (_get_scheduled_at sa si w) <> Diverge.
Proof.
  unfold _get_scheduled_at.
  destruct (truthy_str sa); [discriminate|].
  destruct si as [d|]; [|discriminate].
  destruct (truthy_int (Some d)); [|discriminate].
  unfold bind, time, lift, ret, now_utc, timedelta_seconds, add.
  repeat match goal with
         | |- context [if ?b then _ else _] => destruct b
         end; discriminate.
Qed.

Lemma floor_to_second (t d : Z) :
  (t + d * US_PER_SECOND) - (t + d * US_PER_SECOND) mod US_PER_SECOND
  = (t / US_PER_SECOND + d) * US_PER_SECOND.
Proof.
  unfold US_PER_SECOND. rewrite Z_mod_plus_full.
  pose proof (Z.div_mod t 1000000 ltac:(lia)). lia.
Qed.

Lemma whole_second_microsecond (s : Z) (off : option Z) :
  microsecond {| ticks := s * US_PER_SECOND; utcoffset := off |} = 0.
Proof. unfold microsecond. simpl. apply Z_mod_mult. Qed.

(** ** The processing waiter: termination within the shared budget *)

Section Waiter.

Variable env : Env.
Variables a u : string.

Lemma sleeps_log (e : event) (w : World) :
  sleeps (log e w) = sleeps w + (if is_sleep e then 1 else 0).
Proof.
  unfold sleeps, log. simpl. rewrite filter_app, length_app. simpl.
  destruct (is_sleep e); simpl; lia.
Qed.

Lemma sleep_step (w : World) :
  exists w1,
    sleep env 1 w = (Ok tt, w1)
    /\ clock w + US_PER_SECOND <= clock w1
    /\ sleeps w1 = sleeps w + 1
    /\ trace w1 = trace w ++ [Sleep 1].
Proof.
  eexists. split; [reflexivity|]. repeat split.
  - cbn [clock advance log]. unfold US_PER_SECOND. lia.
  - unfold advance, sleeps. simpl. rewrite filter_app, length_app. simpl. lia.
Qed.

Lemma get_media_step (id : string) (w : World) :
  exists w1,
    api_get_media env a u id w = (Ok (get_media_result env w a u id), w1)
    /\ clock w <= clock w1
    /\ sleeps w1 = sleeps w
    /\ trace w1 = trace w ++ [GetMedia a u id].
Proof.
  eexists. split; [reflexivity|]. repeat split.
  - cbn [clock advance log]. lia.
  - unfold advance, sleeps. simpl. rewrite filter_app, length_app. simpl. lia.
Qed.

Lemma wait_loop_emits (start_time timeout : Z) (fuel : nat) :
  forall media,
    emits is_wait_event (wait_loop env fuel a u media start_time timeout).
Proof.
  induction fuel as [|fuel IH]; intros media; cbn [wait_loop];
    apply emits_if; try apply emits_ret; try apply emits_diverge.
  apply emits_bind; [apply emits_sleep; [reflexivity | lia]|]. intros _.
  apply emits_bind; [apply emits_time|]. intros t.
  apply emits_if; [apply emits_raise|].
  apply emits_bind; [now apply emits_blocking|]. intros m. apply IH.
Qed.

Lemma wait_until_processed_emits (start_time timeout : Z) (fuel : nat)
    (media : Media) :
  emits is_wait_event
    (_wait_until_processed env fuel a u media start_time timeout).
Proof.
  unfold _wait_until_processed. apply emits_if; [apply emits_ret|].
  apply emits_bind; [now apply emits_blocking|]. intros m.
  apply wait_loop_emits.
Qed.

Lemma wait_each_emits (start_time timeout : Z) (fuel : nat)
    (batch : list Media) :
  emits is_wait_event (wait_each env fuel a u batch start_time timeout).
Proof.
  induction batch as [|m batch IH]; cbn [wait_each]; [apply emits_ret|].
  apply emits_bind; [apply wait_until_processed_emits | intros _; exact IH].
Qed.

Lemma wait_until_all_processed_emits (fuel : nat) (batch : list Media) :
  emits is_wait_event (_wait_until_all_processed env fuel a u batch).
Proof.
  unfold _wait_until_all_processed. apply emits_if; [apply emits_ret|].
  apply emits_bind; [apply emits_time|]. intros t.
  apply emits_bind; [now apply emits_echo|]. intros _. apply wait_each_emits.
Qed.

Lemma wait_loop_settles (w0 : World) (fuel : nat) :
  forall media w,
    within_budget w0 w ->
    sleeps w - sleeps w0 <= 60 ->
    61 - (sleeps w - sleeps w0) <= Z.of_nat fuel ->
    exists r w',
      wait_loop env fuel a u media (clock w0) 60 w = (r, w')
      /\ settled w0 r w'.
Proof.
  induction fuel as [|fuel IH]; intros media w Hb Hk Hf; cbn [wait_loop];
    destruct (truthy_str (media_url media)).
  - exists (Ok tt), w. split; [reflexivity|]. split; [assumption|]. left. now split.
  - lia.
  - exists (Ok tt), w. split; [reflexivity|]. split; [assumption|]. left. now split.
  - destruct (sleep_step w) as (w1 & Es & Hc1 & Hs1 & _).
    rewrite (bind_ok _ _ _ _ _ Es), bind_time.
    destruct Hb as [Hb1 Hb2].
    assert (Hb' : within_budget w0 w1) by (split; unfold US_PER_SECOND in *; lia).
    destruct (Z.gtb_spec (clock w1) (clock w0 + 60 * US_PER_SECOND)) as [Et|Et].
    + exists (Raise (ClickException (timeout_message 60))), w1.
      split; [reflexivity|]. split; [assumption|]. right.
      repeat split; lia.
    + destruct (get_media_step (media_id media) w1) as (w2 & Eg & Hc2 & Hs2 & _).
      rewrite (bind_ok _ _ _ _ _ Eg).
      destruct Hb' as [Hb1' Hb2'].
      apply IH.
      * split; unfold US_PER_SECOND in *; lia.
      * unfold US_PER_SECOND in *. lia.
      * lia.
Qed.

Lemma wait_until_processed_settles (w0 : World) (fuel : nat) (media : Media)
    (w : World) :
  within_budget w0 w ->
  sleeps w - sleeps w0 <= 60 ->
  (61 <= fuel)%nat ->
  exists r w',
    _wait_until_processed env fuel a u media (clock w0) 60 w = (r, w')
    /\ settled w0 r w'.
Proof.
  intros Hb Hk Hf. unfold _wait_until_processed.
  destruct (truthy_str (media_url media)).
  - exists (Ok tt), w. split; [reflexivity|]. split; [assumption|]. left. now split.
  - destruct (get_media_step (media_id media) w) as (w1 & Eg & Hc & Hs & _).
    rewrite (bind_ok _ _ _ _ _ Eg). destruct Hb as [Hb1 Hb2].
    apply wait_loop_settles; [split | | ]; unfold US_PER_SECOND in *; lia.
Qed.

Lemma wait_each_settles (w0 : World) (fuel : nat) (batch : list Media) :
  (61 <= fuel)%nat ->
  forall w,
    within_budget w0 w ->
    sleeps w - sleeps w0 <= 60 ->
    exists r w',
      wait_each env fuel a u batch (clock w0) 60 w = (r, w')
      /\ settled w0 r w'.
Proof.
  intros Hf. induction batch as [|m batch IH]; intros w Hb Hk; cbn [wait_each].
  - exists (Ok tt), w. split; [reflexivity|]. split; [assumption|]. left. now split.
  - destruct (wait_until_processed_settles w0 fuel m w Hb Hk Hf)
      as (r & w1 & E & Hb1 & [[-> Hk1] | (-> & Hc & Hk1)]).
    + rewrite (bind_ok _ _ _ _ _ E). now apply IH.
    + exists (Raise (ClickException (timeout_message 60))), w1.
      split; [now rewrite (bind_raise _ _ _ _ _ E)|].
      split; [assumption|]. right. now repeat split.
Qed.

(** A record that is never processed does not leave its wait normally. *)
Lemma wait_loop_stuck (id : string) (start_time timeout : Z) (fuel : nat) :
  (forall w a u,
      media_id (get_media_result env w a u id) = id
      /\ truthy_str (media_url (get_media_result env w a u id)) = false) ->
  forall media w,
    media_id media = id ->
    truthy_str (media_url media) = false ->
    fst (wait_loop env fuel a u media start_time timeout w) <> Ok tt.
Proof.
  intros Hs. induction fuel as [|fuel IH]; intros media w Hid Hu;
    cbn [wait_loop]; rewrite Hu; [discriminate|].
  destruct (sleep_step w) as (w1 & Es & _).
  rewrite (bind_ok _ _ _ _ _ Es), bind_time.
  destruct (clock w1 >? start_time + timeout * US_PER_SECOND); [discriminate|].
  destruct (get_media_step (media_id media) w1) as (w2 & Eg & _).
  rewrite (bind_ok _ _ _ _ _ Eg). rewrite Hid. apply IH; apply Hs.
Qed.

Lemma wait_until_processed_stuck (start_time timeout : Z) (fuel : nat)
    (media : Media) (w : World) :
  stuck env media ->
  fst (_wait_until_processed env fuel a u media start_time timeout w) <> Ok tt.
Proof.
  intros [Hu Hs]. unfold _wait_until_processed. rewrite Hu.
  destruct (get_media_step (media_id media) w) as (w1 & Eg & _).
  rewrite (bind_ok _ _ _ _ _ Eg).
  apply (wait_loop_stuck (media_id media)); [exact Hs | apply Hs | apply Hs].
Qed.

Lemma wait_each_stuck (start_time timeout : Z) (fuel : nat)
    (batch : list Media) :
  Exists (stuck env) batch ->
  forall w, fst (wait_each env fuel a u batch start_time timeout w) <> Ok tt.
Proof.
  induction batch as [|m batch IH]; intros Hex w; [inversion Hex|].
  cbn [wait_each]. unfold bind.
  destruct (_wait_until_processed env fuel a u m start_time timeout w)
    as [[[] | e | ] w1] eqn:E; try discriminate.
  inversion Hex as [? ? Hm | ? ? Hrest]; subst.
  - exfalso. apply (wait_until_processed_stuck start_time timeout fuel m w Hm).
    now rewrite E.
  - now apply IH.
Qed.

End Waiter.

Section WaiterBatch.

Variable env : Env.
Variables a u : string.

Lemma wait_until_all_processed_settles (fuel : nat) (batch : list Media)
    (w : World) :
  (61 <= fuel)%nat ->
  exists r w',
    _wait_until_all_processed env fuel a u batch w = (r, w')
    /\ settled w r w'.
Proof.
  intros Hf. unfold _wait_until_all_processed.
  destruct (forallb _ batch).
  - exists (Ok tt), w. split; [reflexivity|].
    split; [split; lia|]. left. split; [reflexivity | lia].
  - rewrite bind_time.
    rewrite (bind_ok _ _ w tt
               (log (Echo "Waiting for media to finish processing...") w)
               eq_refl).
    destruct (wait_each_settles env a u w fuel batch Hf
                (log (Echo "Waiting for media to finish processing...") w))
      as (r & w' & E & Hs).
    + unfold within_budget. rewrite sleeps_log. cbn [is_sleep clock log].
      split; lia.
    + rewrite sleeps_log. cbn [is_sleep]. lia.
    + exists r, w'. now split.
Qed.

Lemma stuck_not_all_processed (batch : list Media) :
  Exists (stuck env) batch ->
  forallb (fun m => truthy_str (media_url m)) batch = false.
Proof.
  induction 1 as [m l [Hu _] | m l _ IH]; simpl.
  - now rewrite Hu.
  - rewrite IH. apply andb_false_r.
Qed.

Lemma wait_until_all_processed_stuck (fuel : nat) (batch : list Media)
    (w : World) :
  Exists (stuck env) batch ->
  fst (_wait_until_all_processed env fuel a u batch w) <> Ok tt.
Proof.
  intros Hex. unfold _wait_until_all_processed.
  rewrite (stuck_not_all_processed batch Hex), bind_time.
  rewrite (bind_ok _ _ w tt
             (log (Echo "Waiting for media to finish processing...") w)
             eq_refl).
  now apply wait_each_stuck.
Qed.

Lemma wait_until_all_processed_timeout (fuel : nat) (batch : list Media)
    (w : World) :
  (61 <= fuel)%nat ->
  Exists (stuck env) batch ->
  exists w',
    _wait_until_all_processed env fuel a u batch w
    = (Raise (ClickException (timeout_message 60)), w')
    /\ clock w + 60 * US_PER_SECOND < clock w'
    /\ sleeps w' - sleeps w <= 61
    /\ extends is_wait_event w w'.
Proof.
  intros Hf Hex.
  destruct (wait_until_all_processed_settles fuel batch w Hf)
    as (r & w' & E & _ & [[-> _] | (-> & Hc & Hk)]).
  - exfalso. apply (wait_until_all_processed_stuck fuel batch w Hex).
    now rewrite E.
  - exists w'. repeat split; try assumption.
    + pose proof (wait_until_all_processed_emits env a u fuel batch w) as H.
      rewrite E in H. apply H.
    + pose proof (wait_until_all_processed_emits env a u fuel batch w) as H.
      rewrite E in H. apply H.
    + pose proof (wait_until_all_processed_emits env a u fuel batch w) as H.
      rewrite E in H. apply H.
Qed.

(** *** The uploader *)

Lemma py_or_nil_r {A : Type} (l : list A) : py_or l [] = l.
Proof. now destruct l. Qed.

Lemma guarded_getitem {A B : Type} (f : A -> B) (l : list A) (idx : nat)
    (w : World) :
  (if Z.of_nat idx <? len l
   then x <- getitem l idx ;; ret (Some (f x))
   else ret None) w
  = (Ok (option_map f (nth_error l idx)), w).
Proof.
  unfold len, getitem.
  destruct (Z.ltb_spec (Z.of_nat idx) (Z.of_nat (List.length l))) as [H|H].
  - destruct (nth_error l idx) eqn:E; [reflexivity|].
    apply nth_error_None in E. lia.
  - replace (nth_error l idx) with (@None A); [reflexivity|].
    symmetry. apply nth_error_None. lia.
Qed.

Lemma do_upload_step (file : File) (d : option string) (t : option File)
    (w : World) :
  exists w',
    _do_upload env a u file d t w
    = (Ok (upload_media_result env
             (log (Echo ("Uploading media: " ++ name file)%string) w)
             a u file d t), w')
    /\ uploads w' = uploads w ++ [UploadMedia a u file d t]
    /\ extends is_upload_event w w'.
Proof.
  eexists. split; [reflexivity|]. split.
  - unfold uploads. cbn [trace advance log]. rewrite !filter_app. simpl.
    now rewrite app_nil_r.
  - eapply extends_trans; [|apply extends_advance; lia].
    eapply extends_trans; [|apply extends_log; reflexivity].
    apply extends_log; reflexivity.
Qed.

Lemma upload_loop_spec (descs : list string) (thumbs : list File)
    (media : list File) :
  forall idx acc w,
    exists recs w',
      upload_loop env a u idx media descs thumbs acc w = (Ok (acc ++ recs), w')
      /\ List.length recs = List.length media
      /\ uploads w' = uploads w ++ spec_pairing a u idx media descs thumbs
      /\ extends is_upload_event w w'.
Proof.
  induction media as [|file rest IH]; intros idx acc w; cbn [upload_loop].
  - exists [], w. rewrite !app_nil_r. repeat split; try reflexivity;
      try apply extends_refl.
  - rewrite (bind_ok _ _ _ _ _ (guarded_getitem strip descs idx w)).
    rewrite (bind_ok _ _ _ _ _ (guarded_getitem (fun t => t) thumbs idx w)).
    replace (option_map (fun t : File => t) (nth_error thumbs idx))
      with (nth_error thumbs idx) by now destruct (nth_error thumbs idx).
    destruct (do_upload_step file (option_map strip (nth_error descs idx))
                (nth_error thumbs idx) w) as (w1 & E & Hu & Hx).
    rewrite (bind_ok _ _ _ _ _ E).
    destruct (IH (S idx) (acc ++ [upload_media_result env
             (log (Echo ("Uploading media: " ++ name file)%string) w)
             a u file (option_map strip (nth_error descs idx))
             (nth_error thumbs idx)]) w1) as (recs & w' & E' & Hl & Hu' & Hx').
    eexists (_ :: recs), w'. split; [|split; [|split]].
    + rewrite E'. now rewrite <- app_assoc.
    + simpl. now rewrite Hl.
    + rewrite Hu', Hu, <- app_assoc. reflexivity.
    + eapply extends_trans; eassumption.
Qed.

End WaiterBatch.

(** ** The text resolver, the uploader and the command as a whole *)

Lemma bind_ret {A B : Type} (x : A) (k : A -> M B) (w : World) :
  bind (ret x) k w = k x w.
Proof. reflexivity. Qed.

Lemma extends_set_tmp_true (ok : event -> bool) (w : World) :
  extends ok w (set_tmp true w).
Proof.
  repeat split; simpl; [lia | exists []; now rewrite app_nil_r].
Qed.

Section Command.

Variable env : Env.

Lemma editor_input_emits (ok : event -> bool) (ed : string)
    (text : option string) :
  ok (EditorInput ed text) = true -> emits ok (editor_input env ed text).
Proof.
  intros Hok w. unfold editor_input, blocking. cbn [snd].
  eapply extends_trans; [|apply extends_set_tmp_true].
  eapply extends_trans; [|apply extends_advance; lia].
  now apply extends_log.
Qed.

Lemma get_status_text_emits (text editor : option string) (media : list File) :
  emits is_terminal (_get_status_text env text editor media).
Proof.
  unfold _get_status_text, isatty, sys_stdin_read, multiline_input.
  apply emits_bind; [apply emits_ret|]. intros tty.
  apply emits_bind.
  - apply emits_if; [|apply emits_ret].
    apply emits_bind; [now apply emits_blocking | intros; apply emits_ret].
  - intros t. repeat apply emits_if; try apply emits_ret.
    + apply emits_bind; [now apply editor_input_emits | intros; apply emits_ret].
    + apply emits_bind; [now apply emits_echo|]. intros _.
      apply emits_bind; [now apply emits_blocking | intros; apply emits_ret].
Qed.

Lemma get_status_text_returns (text editor : option string)
    (media : list File) (w : World) :
  exists t w', _get_status_text env text editor media w = (Ok t, w').
Proof.
  unfold _get_status_text, isatty. rewrite bind_ret.
  destruct (stdin_isatty env), text as [[|c t]|], editor as [[|c' ed]|],
    media as [|f media]; eexists _, _; reflexivity.
Qed.

Lemma upload_media_unfold (fuel : nat) (a u : string) (media : list File)
    (descs : list string) (thumbs : list File) (w : World) :
  exists batch w1,
    upload_loop env a u 0 media descs thumbs [] w = (Ok batch, w1)
    /\ List.length batch = List.length media
    /\ uploads w1 = uploads w ++ spec_pairing a u 0 media descs thumbs
    /\ extends is_upload_event w w1
    /\ _upload_media env fuel a u media descs thumbs w
       = bind (_wait_until_all_processed env fuel a u batch)
           (fun _ => ret (map media_id batch)) w1.
Proof.
  destruct (upload_loop_spec env a u descs thumbs media 0%nat [] w)
    as (batch & w1 & E & Hl & Hu & Hx).
  exists batch, w1. cbn [app] in E. repeat split; try assumption.
  - apply Hx.
  - apply Hx.
  - apply Hx.
  - unfold _upload_media. rewrite !py_or_nil_r.
    now rewrite (bind_ok _ _ _ _ _ E).
Qed.

Lemma upload_media_emits (fuel : nat) (a u : string) (media : list File)
    (descs : list string) (thumbs : list File) :
  emits (fun e => is_upload_event e || is_wait_event e)
    (_upload_media env fuel a u media descs thumbs).
Proof.
  intros w.
  destruct (upload_media_unfold fuel a u media descs thumbs w)
    as (batch & w1 & _ & _ & _ & Hx & ->).
  eapply extends_trans.
  - eapply extends_weaken; [|exact Hx]. intros e ->. reflexivity.
  - eapply extends_weaken;
      [|apply (emits_bind is_wait_event
                 (_wait_until_all_processed env fuel a u batch)
                 (fun _ => ret (map media_id batch))
                 (wait_until_all_processed_emits env a u fuel batch)
                 (fun _ => emits_ret is_wait_event _))].
    intros e ->. apply orb_true_r.
Qed.

Lemma cleans_raise (e : exn) : cleans (raise e).
Proof. intros w. apply extends_refl. Qed.

Lemma cleans_if (b : bool) (m1 m2 : M unit) :
  cleans m1 -> cleans m2 -> cleans (if b then m1 else m2).
Proof. now destruct b. Qed.

Lemma cleans_bind {A : Type} (m : M A) (k : A -> M unit) :
  emits no_delete m -> (forall x, cleans (k x)) -> cleans (bind m k).
Proof.
  intros Hm Hk w. unfold bind. specialize (Hm w).
  destruct (m w) as [[x | e | ] w1]; cbn [snd] in Hm; try assumption.
  specialize (Hk x w1). destruct (k x w1) as [[[] | e | ] w2].
  - destruct Hk as [Ht (evs & He)]. split; [assumption|].
    destruct Hm as (_ & (evs0 & He0 & _) & _).
    exists (evs0 ++ evs). now rewrite He, He0, <- !app_assoc.
  - eapply extends_trans; eassumption.
  - eapply extends_trans; eassumption.
Qed.

Lemma cleans_then_delete (m : M unit) :
  emits no_delete m -> cleans (m ;;; delete_tmp_status_file).
Proof.
  intros Hm w. unfold bind. specialize (Hm w).
  destruct (m w) as [[[] | e | ] w1]; cbn [snd] in Hm; try assumption.
  unfold delete_tmp_status_file. split; [reflexivity|].
  destruct Hm as (_ & (evs & He & _) & _). exists evs.
  cbn [trace set_tmp log]. now rewrite He, <- app_assoc.
Qed.

Lemma emits_weaken {A : Type} (ok ok' : event -> bool) (m : M A) :
  (forall e, ok e = true -> ok' e = true) -> emits ok m -> emits ok' m.
Proof. intros H Hm w. eapply extends_weaken; [exact H | apply Hm]. Qed.

Lemma post_cleans (fuel : nat) (ctx : Context) (p : Params) :
  cleans (post env fuel ctx p).
Proof.
  unfold post, isatty.
  apply cleans_bind; [apply emits_ret|]. intros tty.
  apply cleans_if; [apply cleans_raise|].
  apply cleans_if; [apply cleans_raise|].
  apply cleans_bind.
  { eapply emits_weaken; [|apply upload_media_emits].
    now intros [] H. }
  intros ids. apply cleans_bind.
  { eapply emits_weaken; [|apply get_status_text_emits]. now intros []. }
  intros t. apply cleans_bind.
  { intros w. rewrite get_scheduled_at_world. apply extends_refl. }
  intros s. apply cleans_if; [apply cleans_raise|].
  apply cleans_bind; [now apply emits_blocking|]. intros resp.
  apply cleans_then_delete.
  apply emits_if; [now apply emits_echo|].
  destruct (dict_get (resp_json resp) "scheduled_at").
  - apply emits_bind; [apply emits_lift|]. intros d. now apply emits_echo.
  - destruct (dict_get (resp_json resp) "url");
      [now apply emits_echo | apply emits_raise].
Qed.

End Command.

(** ** What a wait leaves in the trace *)

Section WaitTrace.

Variable env : Env.
Variables a u : string.
Variables start_time timeout : Z.

Lemma wait_loop_trace (fuel : nat) :
  forall media w,
    exists evs,
      trace (snd (wait_loop env fuel a u media start_time timeout w))
      = trace w ++ evs
      /\ forall e,
           fst (wait_loop env fuel a u media start_time timeout w) = Raise e ->
           In (Sleep 1) evs /\ e = ClickException (timeout_message timeout).
Proof.
  induction fuel as [|fuel IH]; intros media w; cbn [wait_loop];
    destruct (truthy_str (media_url media));
    try (exists []; rewrite app_nil_r; split; [reflexivity | discriminate]).
  destruct (sleep_step env w) as (w1 & Es & _ & _ & Ht1).
  rewrite (bind_ok _ _ _ _ _ Es), bind_time.
  destruct (clock w1 >? start_time + timeout * US_PER_SECOND).
  - exists [Sleep 1]. split; [exact Ht1|]. intros e [= <-].
    split; [now left | reflexivity].
  - destruct (get_media_step env a u (media_id media) w1)
      as (w2 & Eg & _ & _ & Ht2).
    rewrite (bind_ok _ _ _ _ _ Eg).
    destruct (IH (get_media_result env w1 a u (media_id media)) w2)
      as (evs & Ht & Hr).
    exists (Sleep 1 :: GetMedia a u (media_id media) :: evs). split.
    + rewrite Ht, Ht2, Ht1, <- !app_assoc. reflexivity.
    + intros e He. destruct (Hr e He) as [_ ->]. split; [now left | reflexivity].
Qed.

Lemma wait_until_processed_raises (fuel : nat) (media : Media) (w : World)
    (e : exn) :
  fst (_wait_until_processed env fuel a u media start_time timeout w) = Raise e ->
  e = ClickException (timeout_message timeout).
Proof.
  unfold _wait_until_processed.
  destruct (truthy_str (media_url media)); [discriminate|].
  destruct (get_media_step env a u (media_id media) w) as (w1 & Eg & _).
  rewrite (bind_ok _ _ _ _ _ Eg). intros He.
  destruct (wait_loop_trace fuel (get_media_result env w a u (media_id media)) w1)
    as (evs & _ & Hr).
  now destruct (Hr e He).
Qed.

Lemma wait_each_raises (fuel : nat) (batch : list Media) :
  forall w e,
    fst (wait_each env fuel a u batch start_time timeout w) = Raise e ->
    e = ClickException (timeout_message timeout).
Proof.
  induction batch as [|m batch IH]; intros w e; cbn [wait_each];
    [discriminate|].
  unfold bind.
  destruct (_wait_until_processed env fuel a u m start_time timeout w)
    as [[[] | e' | ] w1] eqn:E; cbn [fst].
  - apply IH.
  - intros [= <-].
    apply (wait_until_processed_raises fuel m w). now rewrite E.
  - discriminate.
Qed.

End WaitTrace.

Lemma wait_until_all_processed_raises (env : Env) (fuel : nat) (a u : string)
    (batch : list Media) (w : World) (e : exn) :
  fst (_wait_until_all_processed env fuel a u batch w) = Raise e ->
  e = ClickException (timeout_message 60).
Proof.
  unfold _wait_until_all_processed.
  destruct (forallb _ batch); [discriminate|].
  rewrite bind_time.
  rewrite (bind_ok _ _ w tt
             (log (Echo "Waiting for media to finish processing...") w) eq_refl).
  apply wait_each_raises.
Qed.

Lemma emits_bind_strong {A B : Type} (ok : event -> bool) (P : A -> Prop)
    (m : M A) (k : A -> M B) :
  (forall w x w1, m w = (Ok x, w1) -> P x) ->
  emits ok m -> (forall x, P x -> emits ok (k x)) -> emits ok (bind m k).
Proof.
  intros HP Hm Hk w. unfold bind. specialize (Hm w). specialize (HP w).
  destruct (m w) as [[x | e | ] w1]; cbn [snd] in Hm; try assumption.
  eapply extends_trans; [exact Hm | apply Hk]. now apply (HP x w1).
Qed.

(** ** Stripping whitespace *)

Lemma append_assoc (a b c : string) : ((a ++ b) ++ c = a ++ (b ++ c))%string.
Proof. induction a as [|x a IH]; [reflexivity|]. cbn. now rewrite IH. Qed.

Lemma append_nil_r (a : string) : (a ++ EmptyString)%string = a.
Proof. induction a as [|x a IH]; [reflexivity|]. cbn. now rewrite IH. Qed.

Lemma is_space_In (c : string) : is_space c = true <-> In c whitespace.
Proof.
  unfold is_space. rewrite existsb_exists. split.
  - intros (x & Hx & E). apply String.eqb_eq in E. now subst.
  - intros H. exists c. split; [assumption | apply String.eqb_refl].
Qed.

Lemma whitespace_nonempty (c : string) : In c whitespace -> c <> EmptyString.
Proof.
  intros H ->. apply is_space_In in H. discriminate H.
Qed.

Lemma blank_nil : blank EmptyString.
Proof. exists []. split; [constructor | reflexivity]. Qed.

Lemma blank_cons (c s : string) :
  In c whitespace -> blank s -> blank (c ++ s).
Proof.
  intros Hc (cs & Hcs & ->). exists (c :: cs). split; [now constructor | reflexivity].
Qed.

(** A whitespace character is one, two or three bytes long. *)
Lemma whitespace_shape (c : string) :
  In c whitespace ->
  (exists x, c = String x EmptyString)
  \/ (exists x y, c = String x (String y EmptyString))
  \/ (exists x y z, c = String x (String y (String z EmptyString))).
Proof.
  unfold whitespace, utf8. cbn.
  intros H.
  repeat (destruct H as [<- | H]; [eauto 6|]). destruct H.
Qed.

Lemma not_starts_with_space (s : string) :
  (forall t, is_space t = true -> forall rest, s <> (t ++ rest)%string) ->
  ~ starts_with_space s.
Proof.
  intros H (c & rest & Hc & E).
  exact (H c (proj2 (is_space_In c) Hc) rest E).
Qed.

Lemma lstrip_spec_bounded (n : nat) :
  forall s,
    (String.length s <= n)%nat ->
    exists l, s = (l ++ lstrip s)%string /\ blank l /\ ~ starts_with_space (lstrip s).
Proof.
  induction n as [|n IH]; intros s Hn.
  - destruct s; [|cbn in Hn; lia]. exists EmptyString. split; [reflexivity|].
    split; [apply blank_nil|]. intros (c & rest & Hc & E).
    destruct c; [now apply (whitespace_nonempty EmptyString)|discriminate].
  - destruct s as [|a s1].
    { exists EmptyString. split; [reflexivity|]. split; [apply blank_nil|].
      intros (c & rest & Hc & E).
      destruct c; [now apply (whitespace_nonempty EmptyString)|discriminate]. }
    cbn [String.length] in Hn. cbn [lstrip].
    destruct (is_space (String a EmptyString)) eqn:H1.
    { destruct (IH s1 ltac:(lia)) as (l & E & Hl & Hs).
      exists (String a EmptyString ++ l)%string. split; [|split].
      - cbn. now rewrite <- E.
      - apply blank_cons; [now apply is_space_In | exact Hl].
      - exact Hs. }
    assert (Hstop : forall s2,
               (forall t, is_space t = true ->
                          forall rest, String a s2 <> (t ++ rest)%string) ->
               exists l, String a s2 = (l ++ String a s2)%string /\ blank l
                         /\ ~ starts_with_space (String a s2)).
    { intros s2 H. exists EmptyString. split; [reflexivity|].
      split; [apply blank_nil | now apply not_starts_with_space]. }
    destruct s1 as [|b s2].
    { apply Hstop. intros t Ht rest E. apply is_space_In in Ht.
      destruct (whitespace_shape t Ht) as [(x & ->) | [(x & y & ->) | (x & y & z & ->)]];
        cbn in E; injection E; intros; subst; try discriminate.
      apply is_space_In in Ht. congruence. }
    destruct (is_space (String a (String b EmptyString))) eqn:H2.
    { cbn [String.length] in Hn.
      destruct (IH s2 ltac:(lia)) as (l & E & Hl & Hs).
      exists (String a (String b EmptyString) ++ l)%string. split; [|split].
      - cbn. now rewrite <- E.
      - apply blank_cons; [now apply is_space_In | exact Hl].
      - exact Hs. }
    destruct s2 as [|c s3].
    { apply Hstop. intros t Ht rest E. apply is_space_In in Ht.
      destruct (whitespace_shape t Ht) as [(x & ->) | [(x & y & ->) | (x & y & z & ->)]];
        cbn in E; injection E; intros; subst; try discriminate;
        apply is_space_In in Ht; congruence. }
    destruct (is_space (String a (String b (String c EmptyString)))) eqn:H3.
    { cbn [String.length] in Hn.
      destruct (IH s3 ltac:(lia)) as (l & E & Hl & Hs).
      exists (String a (String b (String c EmptyString)) ++ l)%string.
      split; [|split].
      - cbn. now rewrite <- E.
      - apply blank_cons; [now apply is_space_In | exact Hl].
      - exact Hs. }
    apply Hstop. intros t Ht rest E. apply is_space_In in Ht.
    destruct (whitespace_shape t Ht) as [(x & ->) | [(x & y & ->) | (x & y & z & ->)]];
      cbn in E; injection E; intros; subst; try discriminate;
      apply is_space_In in Ht; congruence.
Qed.

Lemma lstrip_spec (s : string) :
  exists l, s = (l ++ lstrip s)%string /\ blank l /\ ~ starts_with_space (lstrip s).
Proof. apply (lstrip_spec_bounded (String.length s)). apply le_n. Qed.

Lemma ends_with_space_cons (c : ascii) (r : string) :
  ends_with_space (String c r) -> ~ ends_with_space r -> In (String c r) whitespace.
Proof.
  intros (ch & init & Hch & E) Hr. destruct init as [|i init].
  - cbn in E. now subst.
  - cbn in E. injection E as _ E. exfalso. apply Hr. now exists ch, init.
Qed.

Lemma rstrip_spec (s : string) :
  exists r, s = (rstrip s ++ r)%string /\ blank r /\ ~ ends_with_space (rstrip s).
Proof.
  assert (Hnil : ~ ends_with_space EmptyString).
  { intros (c & init & Hc & E). destruct init; [|discriminate].
    cbn in E. subst. now apply (whitespace_nonempty EmptyString). }
  induction s as [|c s' (r & E & Hr & Hs)].
  - exists EmptyString. split; [reflexivity|]. split; [apply blank_nil | exact Hnil].
  - cbn [rstrip]. cbv zeta.
    destruct (is_space (String c (rstrip s'))) eqn:Hc.
    + exists (String c (rstrip s') ++ r)%string. split; [|split].
      * cbn. now rewrite <- E.
      * apply blank_cons; [now apply is_space_In | exact Hr].
      * exact Hnil.
    + exists r. split; [|split].
      * cbn. now rewrite <- E.
      * exact Hr.
      * intros He. apply (ends_with_space_cons c (rstrip s') He) in Hs.
        apply is_space_In in Hs. congruence.
Qed.

Lemma strip_spec (d : string) : stripped_of d (strip d).
Proof.
  destruct (rstrip_spec d) as (r & Er & Hr & Hend).
  destruct (lstrip_spec (rstrip d)) as (l & El & Hl & Hstart).
  exists l, r. unfold strip. split; [|split; [|split; [|split]]]; try assumption.
  - rewrite <- append_assoc, <- El. exact Er.
  - intros (c & init & Hc & E). apply Hend. exists c, (l ++ init)%string.
    split; [assumption|]. rewrite El at 1. rewrite E. now rewrite append_assoc.
Qed.

Lemma rstrip_whitespace (t u : string) :
  In t whitespace -> rstrip u = EmptyString -> rstrip (t ++ u) = EmptyString.
Proof.
  unfold whitespace, utf8. cbn. intros H Hu.
  repeat (destruct H as [<- | H];
          [cbn [append rstrip]; cbv zeta; rewrite Hu; reflexivity|]).
  destruct H.
Qed.

Lemma rstrip_blank (s : string) : blank s -> rstrip s = EmptyString.
Proof.
  intros (cs & Hcs & ->). induction Hcs as [|c cs Hc _ IH]; [reflexivity|].
  cbn [join]. now apply rstrip_whitespace.
Qed.

(** ** The command on explicit inputs *)

(** An interactive run without arguments: the prompt is shown, the typed
    text is posted, the result printed, the scratch file deleted. *)
Example run_interactive_post :
  post (fixed_env true "hello" None) 61 some_ctx
    (params None [] [] None None None) new_year
  = (Ok tt,
     {| clock := clock new_year;
        trace :=
          [ Echo "Write or paste your toot. Press Ctrl-D to post it.";
            MultilineInput;
            PostStatus "app" "user"
              {| req_status := Some "hello"; req_visibility := "public";
                 req_media_ids := []; req_sensitive := false;
                 req_spoiler_text := None; req_in_reply_to_id := None;
                 req_language := None; req_scheduled_at := None;
                 req_content_type := None; req_poll_options := [];
                 req_poll_expires_in := 86400; req_poll_multiple := false;
                 req_poll_hide_totals := false |};
            Echo "Toot posted: https://status/1";
            DeleteTmpStatusFile ];
        tmp_status_file := false |}).
Proof. vm_compute. reflexivity. Qed.

(** Two files and one description: the second file goes without. *)
Example run_upload_short_description :
  uploads (snd (_upload_media (fixed_env false "text" (Some 0)) 61 "app" "user"
                  [ {| name := "1.png" |}; {| name := "2.png" |} ]
                  [ "  a cat " ] [] new_year))
  = [ UploadMedia "app" "user" {| name := "1.png" |} (Some "a cat") None;
      UploadMedia "app" "user" {| name := "2.png" |} None None ].
Proof. vm_compute. reflexivity. Qed.

(** A description wrapped in a no-break space and an em space is uploaded
    without them. *)
Example run_upload_unicode_description :
  uploads (snd (_upload_media (fixed_env false "text" (Some 0)) 61 "app" "user"
                  [ {| name := "1.png" |} ]
                  [ (utf8 [194; 160] ++ "a cat" ++ utf8 [226; 128; 131])%string ]
                  [] new_year))
  = [ UploadMedia "app" "user" {| name := "1.png" |} (Some "a cat") None ].
Proof. vm_compute. reflexivity. Qed.

(** A record that is processed three seconds after the start: three
    sleeps, four re-fetches, a normal return. *)
Example run_wait_three_seconds :
  let run := _wait_until_all_processed
               (fixed_env false "text" (Some (clock new_year + 3000000))) 61
               "app" "user" [ {| media_id := "1"; media_url := None |} ]
               new_year in
  fst run = Ok tt
  /\ clock (snd run) = clock new_year + 3 * US_PER_SECOND
  /\ sleeps (snd run) = 3
  /\ List.length (filter is_get_media (trace (snd run))) = 4%nat.
Proof. vm_compute. repeat split. Qed.

(** Sixty rounds of fuel are one too few for a record that is never
    processed; sixty-one reach the timeout. *)
Example run_wait_fuel :
  fst (_wait_until_all_processed (fixed_env false "text" None) 60 "app" "user"
         [ {| media_id := "1"; media_url := None |} ] new_year) = Diverge
  /\ fst (_wait_until_all_processed (fixed_env false "text" None) 61 "app" "user"
            [ {| media_id := "1"; media_url := None |} ] new_year)
     = Raise (ClickException
                "Media not processed by server after 60 seconds. Aborting.").
Proof. vm_compute. split; reflexivity. Qed.

(** The empty batch is an already processed batch. *)
Example run_wait_empty_batch (env : Env) (fuel : nat) (w : World) :
  _wait_until_all_processed env fuel "app" "user" [] w = (Ok tt, w).
Proof. reflexivity. Qed.

(** * The claims *)

(** ** C3 — a batch that is already processed *)

(** C3. For every batch of uploaded media records in which every record
    already carries a populated URL (the empty batch included, for which
    the hypothesis holds trivially), the processing waiter returns at once
    and leaves the world exactly as it found it: the clock has not moved
    (no sleep), and the trace is unchanged (no [get_media] fetch, nothing
    printed). *)
Theorem C3_processed_batch_returns_immediately (env : Env) (fuel : nat)
    (a u : string) (batch : list Media) (w : World) :
  forallb (fun m => truthy_str (media_url m)) batch = true ->
  _wait_until_all_processed env fuel a u batch w = (Ok tt, w).
Proof.
  intros Hall. unfold _wait_until_all_processed.
  rewrite Hall. reflexivity.
Qed.

Lemma C3_witness :
  _wait_until_all_processed (fixed_env false EmptyString None) 0 "app" "user"
    [ {| media_id := "1"; media_url := Some "https://media/1" |};
      {| media_id := "2"; media_url := Some "https://media/2" |} ] new_year
  = (Ok tt, new_year).
Proof.
  apply C3_processed_batch_returns_immediately. reflexivity.
Defined.

(** ** C4 — more than four attachments *)

(** C4. For every media list with more than 4 entries the command raises a
    [ClickException] (the user-facing error that exits non-zero) and the
    world is unchanged: no upload call, no other network call, no event at
    all has happened.  The message is that of the attachment limit, or
    that of the editor check, which comes first. *)
Theorem C4_too_many_files_fail_before_upload (env : Env) (fuel : nat)
    (ctx : Context) (p : Params) (w : World) :
  4 < len (media p) ->
  exists msg,
    post env fuel ctx p w = (Raise (ClickException msg), w)
    /\ (msg = "Cannot attach more than 4 files."
        \/ msg = "Cannot run editor if not in tty.").
Proof.
  intros H. unfold post, isatty. rewrite bind_ret.
  destruct (truthy_str (editor p) && negb (stdin_isatty env)).
  - eexists. split; [reflexivity | now right].
  - apply Z.gtb_lt in H. rewrite H. eexists. split; [reflexivity | now left].
Qed.

Lemma C4_witness :
  exists msg,
    post (fixed_env true "hello" (Some 0)) 61 some_ctx
      (params (Some "hello")
         [ {| name := "1.png" |}; {| name := "2.png" |}; {| name := "3.png" |};
           {| name := "4.png" |}; {| name := "5.png" |} ] [] None None None)
      new_year
    = (Raise (ClickException msg), new_year)
    /\ (msg = "Cannot attach more than 4 files."
        \/ msg = "Cannot run editor if not in tty.").
Proof.
  apply C4_too_many_files_fail_before_upload. vm_compute. reflexivity.
Defined.

(** ** C7, C8, C10 — the scheduling resolver *)

(** C7 (amended). For every invocation where a non-empty absolute
    [scheduled_at] value is present, the scheduling resolver returns that
    value unchanged, whatever [scheduled_in] is, and touches nothing. *)
Theorem C7_nonempty_absolute_time_wins (s : string) (si : option Z) (w : World) :
  s <> EmptyString ->
  _get_scheduled_at (Some s) si w = (Ok (Some s), w).
Proof.
  intros H. unfold _get_scheduled_at. destruct s; [congruence | reflexivity].
Qed.

Lemma C7_witness :
  _get_scheduled_at (Some "2030-01-01T00:00:00Z") (Some 300) new_year
  = (Ok (Some "2030-01-01T00:00:00Z"), new_year).
Proof.
  apply C7_nonempty_absolute_time_wins. discriminate.
Defined.

(** C7, as stated, fails when the absolute value is present but empty:
    the resolver then does not return it, and [scheduled_in] decides. *)
Lemma C7_counterexample :
  _get_scheduled_at (Some EmptyString) (Some 300) new_year
  = (Ok (Some "2024-01-01T00:05:00+00:00"), new_year)
  /\ _get_scheduled_at (Some EmptyString) (Some 300) new_year
     <> (Ok (Some EmptyString), new_year).
Proof. split; [vm_compute; reflexivity | discriminate]. Qed.

(** C8 (amended). For every invocation with no absolute [scheduled_at] and
    a positive relative duration of [D] seconds, the current UTC time being
    a representable datetime: when that time plus [D] seconds is still a
    representable datetime (before year 10000), the scheduling resolver
    returns the ISO-8601 string of the current UTC time plus [D] seconds
    with the microsecond component set to zero: the date, "T", the time of
    day and "+00:00", without a fractional part; for a larger [D] the
    computation raises [OverflowError] and nothing is returned. *)
Theorem C8_relative_schedule (D : Z) (w : World) (now : datetime) :
  0 < D ->
  now_utc (clock w) = Ok now ->
  let dt := {| ticks := (ticks now / US_PER_SECOND + D) * US_PER_SECOND;
               utcoffset := Some 0 |} in
  (in_range (ticks now + D * US_PER_SECOND) = true ->
   _get_scheduled_at None (Some D) w = (Ok (Some (isoformat dt)), w)
   /\ microsecond dt = 0
   /\ isoformat dt
      = (format_date "-" dt ++ "T" ++ format_time dt ++ "+00:00")%string)
  /\ (in_range (ticks now + D * US_PER_SECOND) = false ->
      _get_scheduled_at None (Some D) w = (Raise OverflowError, w)).
Proof.
  intros HD Hnow dt.
  assert (Hus : microsecond dt = 0) by apply whole_second_microsecond.
  assert (Hstart :
            _get_scheduled_at None (Some D) w
            = (delta <- lift (timedelta_seconds D) ;;
               scheduled_at <- lift (add now delta) ;;
               ret (Some (isoformat (replace_microsecond_0 scheduled_at)))) w).
  { unfold _get_scheduled_at. cbn [truthy_str truthy_int].
    replace (D =? 0) with false by (symmetry; apply Z.eqb_neq; lia).
    cbn [negb]. rewrite bind_time. unfold lift at 1.
    unfold bind at 1. now rewrite Hnow. }
  rewrite Hstart. clear Hstart.
  unfold now_utc in Hnow.
  destruct (in_range (clock w + EPOCH_TICKS)) eqn:Hin; [|discriminate].
  injection Hnow as <-. cbn [ticks] in *.
  unfold in_range in Hin. apply andb_prop in Hin. destruct Hin as [Hin1 _].
  apply Z.leb_le in Hin1.
  split; intros Hr.
  - split; [|split; [exact Hus|]].
    + unfold in_range in Hr. apply andb_prop in Hr. destruct Hr as [_ Hr2].
      apply Z.ltb_lt in Hr2.
      unfold lift, bind, timedelta_seconds.
      replace ((-999999999 <=? D / 86400) && (D / 86400 <=? 999999999)) with true.
      2:{ symmetry. apply andb_true_intro.
          pose proof (Z.div_mod D 86400 ltac:(lia)).
          pose proof (Z.mod_pos_bound D 86400 ltac:(lia)).
          unfold MAXORDINAL, US_PER_DAY, US_PER_SECOND in *.
          split; [apply Z.leb_le | apply Z.leb_le]; lia. }
      unfold add. cbn [ticks td_us utcoffset].
      replace (in_range (clock w + EPOCH_TICKS + D * US_PER_SECOND)) with true.
      2:{ symmetry. unfold in_range. apply andb_true_intro.
          unfold US_PER_SECOND in *.
          split; [apply Z.leb_le | apply Z.ltb_lt]; lia. }
      unfold ret, replace_microsecond_0, microsecond. cbn [ticks utcoffset].
      rewrite floor_to_second. reflexivity.
    + unfold isoformat. rewrite Hus. reflexivity.
  - unfold lift, bind, timedelta_seconds.
    destruct ((-999999999 <=? D / 86400) && (D / 86400 <=? 999999999));
      [|reflexivity].
    unfold add. cbn [ticks td_us utcoffset]. now rewrite Hr.
Qed.

Lemma C8_witness :
  _get_scheduled_at None (Some 300) new_year
  = (Ok (Some "2024-01-01T00:05:00+00:00"), new_year).
Proof.
  exact (proj1 (proj1 (C8_relative_schedule 300 new_year
                         {| ticks := 1704067200500000 + EPOCH_TICKS;
                            utcoffset := Some 0 |}
                         eq_refl eq_refl) eq_refl)).
Defined.

(** C8, as stated, fails for a duration that leads past the last
    representable datetime: the addition overflows and nothing is
    returned. *)
Lemma C8_counterexample :
  0 < 1000000000000
  /\ _get_scheduled_at None (Some 1000000000000) new_year
     = (Raise OverflowError, new_year).
Proof. split; [reflexivity | vm_compute; reflexivity]. Qed.

Lemma delete_emits (ok : event -> bool) :
  ok DeleteTmpStatusFile = true -> emits ok delete_tmp_status_file.
Proof.
  intros Hok w. unfold delete_tmp_status_file. cbn [snd].
  repeat split; cbn [clock trace set_tmp log]; [lia | | congruence].
  exists [DeleteTmpStatusFile]. cbn [forallb]. now rewrite Hok.
Qed.

Lemma get_scheduled_at_falsy (sa : option string) (si : option Z) (w : World) :
  truthy_str sa = false -> truthy_int si = false ->
  _get_scheduled_at sa si w = (Ok None, w).
Proof.
  intros Ha Hi. unfold _get_scheduled_at. rewrite Ha.
  destruct si as [d|]; [now rewrite Hi | reflexivity].
Qed.

(** C10. The scheduling resolver tests both of its arguments for
    truthiness: with [scheduled_at] absent or the empty string and
    [scheduled_in] absent or 0 it returns absent, and touches nothing; a
    command run with such arguments never passes a scheduled time to the
    status-creation API, so the post is submitted immediately. *)
Theorem C10_zero_duration_is_absent (sa : option string) (si : option Z) :
  sa = None \/ sa = Some EmptyString ->
  si = None \/ si = Some 0 ->
  (forall w, _get_scheduled_at sa si w = (Ok None, w))
  /\ (forall env fuel ctx p,
        scheduled_at p = sa -> scheduled_in p = si ->
        emits unscheduled (post env fuel ctx p)).
Proof.
  intros Ha Hi.
  assert (Hta : truthy_str sa = false) by (destruct Ha; now subst).
  assert (Hti : truthy_int si = false) by (destruct Hi; now subst).
  split; [intros w; now apply get_scheduled_at_falsy|].
  intros env fuel ctx p <- <-. unfold post, isatty.
  apply emits_bind; [apply emits_ret|]. intros tty.
  apply emits_if; [apply emits_raise|].
  apply emits_if; [apply emits_raise|].
  apply emits_bind.
  { eapply emits_weaken; [|apply upload_media_emits]. now intros []. }
  intros ids. apply emits_bind.
  { eapply emits_weaken; [|apply get_status_text_emits]. now intros []. }
  intros t.
  apply (emits_bind_strong unscheduled (fun s => s = None)).
  { intros w s w1 E. rewrite get_scheduled_at_falsy in E by assumption.
    congruence. }
  { intros w. rewrite get_scheduled_at_world. apply extends_refl. }
  intros s ->. apply emits_if; [apply emits_raise|].
  apply emits_bind; [now apply emits_blocking|]. intros resp.
  apply emits_bind; [|intros; now apply delete_emits].
  apply emits_if; [now apply emits_echo|].
  destruct (dict_get (resp_json resp) "scheduled_at").
  - apply emits_bind; [apply emits_lift|]. intros d. now apply emits_echo.
  - destruct (dict_get (resp_json resp) "url");
      [now apply emits_echo | apply emits_raise].
Qed.

Lemma C10_witness :
  _get_scheduled_at (Some EmptyString) (Some 0) new_year = (Ok None, new_year).
Proof.
  exact (proj1 (C10_zero_duration_is_absent (Some EmptyString) (Some 0)
                  (or_intror eq_refl) (or_intror eq_refl)) new_year).
Defined.

(** ** C1 — the scratch file *)

(** C1 (amended). The scratch file used for interactive/editor composition
    is deleted as the last action of the command when it returns, that is
    on the success path.  On every path on which the command raises
    instead (a usage error such as the "empty post" one, a
    media-processing timeout, an error while the result is printed) the
    scratch file is not deleted: no deletion has taken place and a scratch
    file that existed still exists. *)
Theorem C1_scratch_file_deleted_on_success_only (env : Env) (fuel : nat)
    (ctx : Context) (p : Params) (w : World) :
  match post env fuel ctx p w with
  | (Ok _, w') =>
      tmp_status_file w' = false
      /\ exists evs, trace w' = trace w ++ evs ++ [DeleteTmpStatusFile]
  | (_, w') =>
      deletions w' = deletions w
      /\ (tmp_status_file w = true -> tmp_status_file w' = true)
  end.
Proof.
  pose proof (post_cleans env fuel ctx p w) as H.
  destruct (post env fuel ctx p w) as [[[] | e | ] w']; [exact H | | ];
    (split; [apply (extends_filter no_delete); [now intros [] | exact H]
            | now apply H]).
Qed.

(** C1, as stated, fails on the "empty post" path and on the timeout path:
    an editor session that leaves no text ends in the usage error with the
    scratch file still there, and so does a media-processing timeout that
    started with a scratch file. *)
Lemma C1_counterexample :
  (let '(r, w') := post (fixed_env true EmptyString None) 61 some_ctx
                     (params None [] [] (Some "vi") None None) new_year in
   r = Raise (ClickException "You must specify either text or media to post.")
   /\ tmp_status_file w' = true /\ deletions w' = [])
  /\ (let '(r, w') := post (fixed_env true EmptyString None) 61 some_ctx
                        (params (Some "hi") [ {| name := "1.png" |} ] [] None
                           None None)
                        (set_tmp true new_year) in
      r = Raise (ClickException
                   "Media not processed by server after 60 seconds. Aborting.")
      /\ tmp_status_file w' = true /\ deletions w' = []).
Proof. vm_compute. repeat split. Qed.

(** ** C5 — the empty post *)

(** C5 (amended). For every invocation that resolves to empty status text
    and an empty media-id list (no media file was given), the command
    fails before any network call, so the status-creation API is never
    invoked.  The failure is a user-facing [ClickException] (the "empty
    post" usage error, or the editor check that precedes it) whenever the
    scheduling resolver returns; when the scheduling resolver itself
    raises, that error is the one the command fails with. *)
Theorem C5_empty_post_fails_before_network (env : Env) (fuel : nat)
    (ctx : Context) (p : Params) (w : World) :
  media p = [] ->
  truthy_str (resolved_text env p w) = false ->
  exists e w',
    post env fuel ctx p w = (Raise e, w')
    /\ network_calls w' = network_calls w
    /\ (e = ClickException "Cannot run editor if not in tty."
        \/ e = ClickException "You must specify either text or media to post."
        \/ fst (_get_scheduled_at (scheduled_at p) (scheduled_in p) w') = Raise e).
Proof.
  intros Hm Ht. unfold post, isatty. rewrite bind_ret.
  destruct (truthy_str (editor p) && negb (stdin_isatty env)).
  { eexists _, w. split; [reflexivity|]. split; [reflexivity | now left]. }
  replace (len (media p) >? 4) with false by (now rewrite Hm).
  assert (E1 : _upload_media env fuel (app ctx) (user ctx) (media p)
                 (description p) (thumbnail p) w = (Ok [], w))
    by (now rewrite Hm).
  rewrite (bind_ok _ _ _ _ _ E1).
  destruct (get_status_text_returns env (text p) (editor p) (media p) w)
    as (t & w1 & E2).
  unfold resolved_text in Ht. rewrite E2 in Ht. cbn [fst] in Ht.
  rewrite (bind_ok _ _ _ _ _ E2).
  assert (Hnet : network_calls w1 = network_calls w).
  { apply (extends_filter is_terminal); [now intros []|].
    pose proof (get_status_text_emits env (text p) (editor p) (media p) w) as H.
    now rewrite E2 in H. }
  pose proof (get_scheduled_at_world (scheduled_at p) (scheduled_in p) w1) as Hw.
  pose proof (get_scheduled_at_never_diverges (scheduled_at p) (scheduled_in p) w1)
    as Hd.
  destruct (_get_scheduled_at (scheduled_at p) (scheduled_in p) w1)
    as [[s | e | ] w2] eqn:E3; cbn [fst snd] in Hw, Hd; subst w2.
  - rewrite (bind_ok _ _ _ _ _ E3), Ht. cbn [negb andb truthy_list].
    eexists _, w1. split; [reflexivity|]. split; [exact Hnet | right; now left].
  - rewrite (bind_raise _ _ _ _ _ E3).
    exists e, w1. split; [reflexivity|]. split; [exact Hnet|].
    right; right. now rewrite E3.
  - congruence.
Qed.

Lemma C5_witness :
  exists e w',
    post (fixed_env false EmptyString None) 61 some_ctx
      (params None [] [] None None None) new_year = (Raise e, w')
    /\ network_calls w' = network_calls new_year
    /\ (e = ClickException "Cannot run editor if not in tty."
        \/ e = ClickException "You must specify either text or media to post."
        \/ fst (_get_scheduled_at None None w') = Raise e).
Proof.
  apply (C5_empty_post_fails_before_network (fixed_env false EmptyString None) 61
           some_ctx (params None [] [] None None None) new_year);
    reflexivity.
Defined.

(** C5, as stated, fails when the relative schedule overflows: the
    invocation resolves to empty text and no media, and fails with an
    [OverflowError], which is not a user-facing [ClickException]. *)
Lemma C5_counterexample :
  let env := fixed_env false EmptyString None in
  let p := params None [] [] None None (Some 1000000000000) in
  media p = []
  /\ truthy_str (resolved_text env p new_year) = false
  /\ fst (post env 61 some_ctx p new_year) = Raise OverflowError
  /\ forall msg, fst (post env 61 some_ctx p new_year) <> Raise (ClickException msg).
Proof.
  vm_compute. repeat split. intros msg H. discriminate H.
Qed.

(** ** C6 — the uploader *)

(** C6. For every media list and every description and thumbnail list
    (shorter ones included), the uploader makes exactly the upload calls of
    [spec_pairing], in input order: entry [i] of the media list with
    [description[i]] stripped of surrounding whitespace if [i] is within
    the description list, else absent, and with [thumbnail[i]] if [i] is
    within the thumbnail list, else absent.  The stripped description is
    the given one without the whitespace around it: the given description
    is the stripped one between two runs of whitespace characters, and the
    stripped one neither starts nor ends with a whitespace character.  The
    uploader never raises an index error, and when it returns it returns
    one id per file. *)
Theorem C6_uploader_pairs_by_index (env : Env) (fuel : nat) (a u : string)
    (media : list File) (description : list string) (thumbnail : list File)
    (w : World) :
  let run := _upload_media env fuel a u media description thumbnail w in
  uploads (snd run) = uploads w ++ spec_pairing a u 0 media description thumbnail
  /\ (forall d, In d description -> stripped_of d (strip d))
  /\ fst run <> Raise IndexError
  /\ (forall ids, fst run = Ok ids -> List.length ids = List.length media).
Proof.
  cbv zeta. split; [|split; [intros d _; apply strip_spec|]].
  - destruct (upload_media_unfold env fuel a u media description thumbnail w)
      as (batch & w1 & _ & _ & Hu & _ & E).
    rewrite E, <- Hu. unfold uploads.
    apply (extends_filter is_wait_event); [now intros []|].
    apply (emits_bind is_wait_event
             (_wait_until_all_processed env fuel a u batch)
             (fun _ => ret (map media_id batch))
             (wait_until_all_processed_emits env a u fuel batch)
             (fun _ => emits_ret is_wait_event _)).
  - destruct (upload_media_unfold env fuel a u media description thumbnail w)
      as (batch & w1 & _ & Hl & _ & _ & E).
    rewrite E. unfold bind.
    pose proof (wait_until_all_processed_raises env fuel a u batch w1) as Hr.
    destruct (_wait_until_all_processed env fuel a u batch w1)
      as [[[] | e | ] w2]; cbn [fst snd ret] in *;
      (split; [|intros ids [= <-]]).
    + discriminate.
    + now rewrite length_map.
    + rewrite (Hr e eq_refl). discriminate.
    + discriminate.
Qed.

(** ** C9 — one re-fetch before any timeout *)

(** C9. For every media record that enters the per-item wait without a
    populated URL, whatever the start time, the timeout and the clock are
    (so also when the shared deadline is already past), the first thing the
    wait does is a re-fetch via [get_media].  A timeout error is raised
    only after a 1-second sleep that follows this re-fetch; and when the
    first re-fetch returns a populated URL the wait returns normally,
    having done nothing but that one re-fetch. *)
Theorem C9_refetch_precedes_timeout (env : Env) (fuel : nat) (a u : string)
    (media : Media) (start_time timeout : Z) (w : World) :
  truthy_str (media_url media) = false ->
  let run := _wait_until_processed env fuel a u media start_time timeout w in
  (exists rest,
      trace (snd run) = trace w ++ GetMedia a u (media_id media) :: rest
      /\ forall e,
           fst run = Raise e ->
           In (Sleep 1) rest /\ e = ClickException (timeout_message timeout))
  /\ (truthy_str (media_url (get_media_result env w a u (media_id media))) = true ->
      fst run = Ok tt
      /\ trace (snd run) = trace w ++ [GetMedia a u (media_id media)]).
Proof.
  intros Hu. cbv zeta. unfold _wait_until_processed. rewrite Hu.
  destruct (get_media_step env a u (media_id media) w) as (w1 & Eg & _ & _ & Ht1).
  rewrite (bind_ok _ _ _ _ _ Eg). split.
  - destruct (wait_loop_trace env a u start_time timeout fuel
                (get_media_result env w a u (media_id media)) w1)
      as (evs & Ht & Hr).
    exists evs. split; [|exact Hr].
    rewrite Ht, Ht1, <- app_assoc. reflexivity.
  - intros Hready.
    assert (E : wait_loop env fuel a u
                  (get_media_result env w a u (media_id media))
                  start_time timeout w1 = (Ok tt, w1))
      by (destruct fuel; cbn [wait_loop]; now rewrite Hready).
    rewrite E. now split.
Qed.

(** The deadline (start 0, 60 seconds) is long past at [new_year]; the
    record is fetched once, comes back processed, and the wait returns. *)
Lemma C9_witness :
  let run := _wait_until_processed (fixed_env false EmptyString (Some 0)) 61 "app" "user"
               {| media_id := "1"; media_url := None |} 0 60 new_year in
  fst run = Ok tt /\ trace (snd run) = [GetMedia "app" "user" "1"].
Proof.
  exact (proj2 (C9_refetch_precedes_timeout (fixed_env false EmptyString (Some 0)) 61
                  "app" "user" {| media_id := "1"; media_url := None |}
                  0 60 new_year eq_refl) eq_refl).
Defined.

(** ** C2 — the timeout *)

(** C2. With enough fuel for the polling loop (61 rounds), for every batch
    holding a media record whose URL never becomes populated, the
    processing waiter terminates by raising the timeout error, whose
    message names the 60 seconds.  When it does, more than 60 seconds have
    passed since the single start timestamp taken on entry, before any
    per-item wait; the budget is shared by the whole batch and not reset
    per item, so that at most 61 one-second sleeps have happened in all.
    The status-creation API is not called: neither by the waiter, nor by
    the command, which fails with the same error. *)
Theorem C2_unprocessed_media_times_out (env : Env) (fuel : nat) :
  (61 <= fuel)%nat ->
  (forall a u batch w,
      Exists (stuck env) batch ->
      exists w',
        _wait_until_all_processed env fuel a u batch w
        = (Raise (ClickException
                    "Media not processed by server after 60 seconds. Aborting."),
           w')
        /\ clock w + 60 * US_PER_SECOND < clock w'
        /\ sleeps w' - sleeps w <= 61
        /\ post_status_calls w' = post_status_calls w)
  /\ (forall ctx p w batch w1,
        truthy_str (editor p) && negb (stdin_isatty env) = false ->
        len (media p) <= 4 ->
        upload_loop env (app ctx) (user ctx) 0 (media p) (description p)
          (thumbnail p) [] w = (Ok batch, w1) ->
        Exists (stuck env) batch ->
        exists w',
          post env fuel ctx p w
          = (Raise (ClickException
                      "Media not processed by server after 60 seconds. Aborting."),
             w')
          /\ post_status_calls w' = post_status_calls w).
Proof.
  intros Hf. split.
  - intros a u batch w Hex.
    destruct (wait_until_all_processed_timeout env a u fuel batch w Hf Hex)
      as (w' & E & Hc & Hk & Hx).
    exists w'. repeat split; try assumption.
    apply (extends_filter is_wait_event); [now intros [] | exact Hx].
  - intros ctx p w batch w1 Hg Hlen Eup Hex.
    destruct (upload_media_unfold env fuel (app ctx) (user ctx) (media p)
                (description p) (thumbnail p) w)
      as (batch' & w1' & Eup' & _ & _ & Hx1 & E).
    rewrite Eup in Eup'. injection Eup' as <- <-.
    destruct (wait_until_all_processed_timeout env (app ctx) (user ctx) fuel
                batch w1 Hf Hex) as (w' & Ew & _ & _ & Hx2).
    rewrite (bind_raise _ _ _ _ _ Ew) in E.
    exists w'. split.
    + unfold post, isatty. rewrite bind_ret, Hg.
      replace (len (media p) >? 4) with false
        by (symmetry; rewrite Z.gtb_ltb; apply Z.ltb_ge; exact Hlen).
      now rewrite (bind_raise _ _ _ _ _ E).
    + unfold post_status_calls.
      rewrite (extends_filter is_wait_event is_post_status w1 w');
        [|now intros [] | exact Hx2].
      apply (extends_filter is_upload_event); [now intros [] | exact Hx1].
Qed.

Lemma fixed_env_stuck (tty : bool) (typed : string) (id : string) :
  stuck (fixed_env tty typed None) {| media_id := id; media_url := None |}.
Proof. split; [reflexivity | intros w a u; split; reflexivity]. Qed.

(** Two records that are never processed: the first one uses up the whole
    budget, 61 seconds after the start the timeout is raised. *)
Lemma C2_witness :
  exists w',
    _wait_until_all_processed (fixed_env false EmptyString None) 61 "app" "user"
      [ {| media_id := "1"; media_url := None |};
        {| media_id := "2"; media_url := None |} ] new_year
    = (Raise (ClickException
                "Media not processed by server after 60 seconds. Aborting."),
       w')
    /\ clock new_year + 60 * US_PER_SECOND < clock w'
    /\ sleeps w' - sleeps new_year <= 61
    /\ post_status_calls w' = post_status_calls new_year.
Proof.
  apply (proj1 (C2_unprocessed_media_times_out (fixed_env false EmptyString None) 61
                  (le_n 61))).
  apply Exists_cons_hd. apply fixed_env_stuck.
Defined.

(** * Further properties of the command *)

(** ** Every run follows one of the paths *)

Lemma upload_media_returns_ids (env : Env) (fuel : nat) (a u : string)
    (media : list File) (descs : list string) (thumbs : list File)
    (w : World) (ids : list string) (w1 : World) :
  _upload_media env fuel a u media descs thumbs w = (Ok ids, w1) ->
  List.length ids = List.length media.
Proof.
  destruct (upload_media_unfold env fuel a u media descs thumbs w)
    as (batch & w0 & _ & Hl & _ & _ & E).
  rewrite E. unfold bind.
  destruct (_wait_until_all_processed env fuel a u batch w0) as [[[] | e | ] w2];
    try discriminate.
  intros [= <- <-]. now rewrite length_map.
Qed.

Lemma post_follows_a_path (env : Env) (fuel : nat) (ctx : Context) (p : Params)
    (w : World) :
  post_path env fuel ctx p w (fst (post env fuel ctx p w))
    (snd (post env fuel ctx p w)).
Proof.
  unfold post, isatty. rewrite bind_ret.
  destruct (truthy_str (editor p) && negb (stdin_isatty env)) eqn:Hg.
  { now apply path_no_tty. }
  destruct (Z.gtb_spec (len (media p)) 4) as [Hlen | Hlen].
  { apply path_too_many; [assumption | lia]. }
  destruct (_upload_media env fuel (app ctx) (user ctx) (media p)
              (description p) (thumbnail p) w) as [[ids | e | ] w1] eqn:E1.
  2:{ rewrite (bind_raise _ _ _ _ _ E1). now apply path_upload_raised. }
  2:{ rewrite (bind_diverge _ _ _ _ E1). now apply path_upload_diverged. }
  rewrite (bind_ok _ _ _ _ _ E1).
  destruct (get_status_text_returns env (text p) (editor p) (media p) w1)
    as (t & w2 & E2).
  rewrite (bind_ok _ _ _ _ _ E2).
  pose proof (get_scheduled_at_world (scheduled_at p) (scheduled_in p) w2) as Hw.
  pose proof (get_scheduled_at_never_diverges (scheduled_at p) (scheduled_in p) w2)
    as Hd.
  destruct (_get_scheduled_at (scheduled_at p) (scheduled_in p) w2)
    as [[s | e | ] w3] eqn:E3; cbn [fst snd] in Hw, Hd; subst w3.
  3:{ congruence. }
  2:{ rewrite (bind_raise _ _ _ _ _ E3). cbn [fst snd].
      now apply (path_schedule_raised env fuel ctx p w ids w1 t w2 e). }
  rewrite (bind_ok _ _ _ _ _ E3).
  destruct (negb (truthy_str t) && negb (truthy_list ids)) eqn:Hempty.
  - apply andb_prop in Hempty. destruct Hempty as [Ht Hi].
    apply negb_true_iff in Ht. destruct ids as [|i ids]; [|discriminate].
    cbn [fst snd raise].
    now apply (path_empty env fuel ctx p w w1 t w2 s).
  - apply (path_submitted env fuel ctx p w ids w1 t w2 s); try assumption.
    + apply andb_false_iff in Hempty. destruct Hempty as [Ht | Hi].
      * left. now apply negb_false_iff in Ht.
      * right. destruct ids; [discriminate | congruence].
    + match goal with
      | |- _ = (fst ?X, snd ?X) =>
          change X with
            (report env p
               (post_status_result env w2 (app ctx) (user ctx)
                  (request_of p ids t s))
               (advance (Z.of_N (call_latency env w2))
                  (log (PostStatus (app ctx) (user ctx) (request_of p ids t s))
                     w2)))
      end.
      now destruct (report env p _ _).
Qed.

(** ** The last step of the command *)

Lemma report_body_emits (env : Env) (ok : event -> bool) (p : Params)
    (response : Response) :
  (forall s, ok (Echo s) = true) ->
  emits ok
    (if json p then echo (resp_text response)
     else
       match dict_get (resp_json response) "scheduled_at" with
       | Some s =>
           scheduled_at <- lift (parse_datetime env s) ;;
           echo ("Toot scheduled for: " ++ strftime_ymd_hms_z scheduled_at)%string
       | None =>
           match dict_get (resp_json response) "url" with
           | Some url => echo ("Toot posted: " ++ url)%string
           | None => raise (KeyError "url")
           end
       end).
Proof.
  intros Hecho. apply emits_if; [now apply emits_echo|].
  destruct (dict_get (resp_json response) "scheduled_at").
  - apply emits_bind; [apply emits_lift|]. intros d. now apply emits_echo.
  - destruct (dict_get (resp_json response) "url");
      [now apply emits_echo | apply emits_raise].
Qed.

Lemma report_emits (env : Env) (ok : event -> bool) (p : Params)
    (response : Response) :
  (forall s, ok (Echo s) = true) ->
  ok DeleteTmpStatusFile = true ->
  emits ok (report env p response).
Proof.
  intros Hecho Hdel. unfold report.
  apply emits_bind; [now apply report_body_emits|].
  intros _. now apply delete_emits.
Qed.

Lemma report_cleans (env : Env) (p : Params) (response : Response) :
  cleans (report env p response).
Proof.
  unfold report. apply cleans_then_delete. now apply report_body_emits.
Qed.

(** How the last step can end. *)
Lemma report_outcome (env : Env) (p : Params) (response : Response) (w : World) :
  fst (report env p response w) = Ok tt
  \/ json p = false
     /\ (dict_get (resp_json response) "scheduled_at" = None
         /\ dict_get (resp_json response) "url" = None
         /\ fst (report env p response w) = Raise (KeyError "url")
         \/ exists s,
              dict_get (resp_json response) "scheduled_at" = Some s
              /\ (parse_datetime env s = Diverge
                  /\ fst (report env p response w) = Diverge
                  \/ exists e,
                       parse_datetime env s = Raise e
                       /\ fst (report env p response w) = Raise e)).
Proof.
  unfold report. destruct (json p); [now left|].
  destruct (dict_get (resp_json response) "scheduled_at") as [s|] eqn:Es.
  - unfold bind, lift.
    destruct (parse_datetime env s) as [d | e | ] eqn:Ep.
    + left. reflexivity.
    + right. split; [reflexivity|]. right. exists s. split; [reflexivity|].
      right. exists e. split; [exact Ep | reflexivity].
    + right. split; [reflexivity|]. right. exists s. split; [reflexivity|].
      left. split; [exact Ep | reflexivity].
  - destruct (dict_get (resp_json response) "url") as [url|] eqn:Eu.
    + left. reflexivity.
    + right. split; [reflexivity|]. left. repeat split; reflexivity.
Qed.


(** ** The uploader within its budget *)

Lemma upload_media_raises (env : Env) (fuel : nat) (a u : string)
    (media : list File) (descs : list string) (thumbs : list File) (w : World)
    (e : exn) :
  fst (_upload_media env fuel a u media descs thumbs w) = Raise e ->
  e = ClickException (timeout_message 60).
Proof.
  destruct (upload_media_unfold env fuel a u media descs thumbs w)
    as (batch & w1 & _ & _ & _ & _ & ->).
  unfold bind.
  pose proof (wait_until_all_processed_raises env fuel a u batch w1) as Hr.
  destruct (_wait_until_all_processed env fuel a u batch w1) as [[[] | e' | ] w2];
    cbn [fst ret] in *; try discriminate.
  intros [= <-]. now apply Hr.
Qed.

Lemma upload_media_phases (env : Env) (fuel : nat) (a u : string)
    (media : list File) (descs : list string) (thumbs : list File) (w : World) :
  exists w0,
    extends is_upload_event w w0
    /\ extends is_wait_event w0
         (snd (_upload_media env fuel a u media descs thumbs w)).
Proof.
  destruct (upload_media_unfold env fuel a u media descs thumbs w)
    as (batch & w1 & _ & _ & _ & Hx & ->).
  exists w1. split; [exact Hx|].
  apply (emits_bind is_wait_event
           (_wait_until_all_processed env fuel a u batch)
           (fun _ => ret (map media_id batch))
           (wait_until_all_processed_emits env a u fuel batch)
           (fun _ => emits_ret is_wait_event _)).
Qed.

Lemma scheduled_at_raises (sa : option string) (si : option Z) (w : World)
    (e : exn) :
  fst (_get_scheduled_at sa si w) = Raise e ->
  e = OverflowError \/ e = ValueError "year is out of range".
Proof.
  unfold _get_scheduled_at.
  destruct (truthy_str sa); [discriminate|].
  destruct si as [d|]; [|discriminate].
  destruct (truthy_int (Some d)); [|discriminate].
  unfold bind, time, lift, ret, now_utc, timedelta_seconds, add.
  repeat match goal with
         | |- context [if ?b then _ else _] => destruct b
         end; cbn [fst]; intros [= <-]; auto.
Qed.

(** ** What a run has done when it ends *)

Lemma upload_media_prepares (env : Env) (fuel : nat) (a u : string)
    (media : list File) (descs : list string) (thumbs : list File) (w : World) :
  extends is_preparation w (snd (_upload_media env fuel a u media descs thumbs w)).
Proof.
  eapply extends_weaken; [|apply upload_media_emits].
  intros e H. unfold is_preparation. now rewrite H.
Qed.

Lemma get_status_text_prepares (env : Env) (text editor : option string)
    (media : list File) (w : World) :
  extends is_preparation w (snd (_get_status_text env text editor media w)).
Proof.
  eapply extends_weaken; [|apply get_status_text_emits].
  intros e H. unfold is_preparation. rewrite H. apply orb_true_r.
Qed.

(** A run either stops while preparing, with one of the early errors, or
    prepares, submits one request and reports. *)
Lemma post_digest (env : Env) (fuel : nat) (ctx : Context) (p : Params)
    (w : World) (r : outcome unit) (w' : World) :
  post_path env fuel ctx p w r w' ->
  (extends is_preparation w w'
   /\ (r = Diverge /\ fst (_upload_media env fuel (app ctx) (user ctx) (media p)
                            (description p) (thumbnail p) w) = Diverge
       \/ r = Raise (ClickException "Cannot run editor if not in tty.")
       \/ r = Raise (ClickException "Cannot attach more than 4 files.")
       \/ r = Raise (ClickException (timeout_message 60))
       \/ r = Raise (ClickException
                       "You must specify either text or media to post.")
       \/ r = Raise OverflowError
       \/ r = Raise (ValueError "year is out of range")))
  \/ exists ids t s w2,
       extends is_preparation w w2
       /\ List.length ids = List.length (media p)
       /\ len (media p) <= 4
       /\ (truthy_str t = true \/ ids <> [])
       /\ _get_scheduled_at (scheduled_at p) (scheduled_in p) w2 = (Ok s, w2)
       /\ report env p
            (post_status_result env w2 (app ctx) (user ctx) (request_of p ids t s))
            (submitted_world env (app ctx) (user ctx) (request_of p ids t s) w2)
          = (r, w').
Proof.
  intros H.
  assert (Hup : forall x w1,
             _upload_media env fuel (app ctx) (user ctx) (media p)
               (description p) (thumbnail p) w = (x, w1) ->
             extends is_preparation w w1).
  { intros x w1 E.
    pose proof (upload_media_prepares env fuel (app ctx) (user ctx) (media p)
                  (description p) (thumbnail p) w) as Hx.
    now rewrite E in Hx. }
  assert (Htx : forall w1 t w2,
             _get_status_text env (text p) (editor p) (media p) w1 = (Ok t, w2) ->
             extends is_preparation w1 w2).
  { intros w1 t w2 E.
    pose proof (get_status_text_prepares env (text p) (editor p) (media p) w1)
      as Hx.
    now rewrite E in Hx. }
  destruct H as [Hg | Hg Hlen | e w1 Hg Hlen E1 | w1 Hg Hlen E1
                | ids w1 t w2 e Hg Hlen E1 E2 E3
                | w1 t w2 s Hg Hlen E1 E2 E3 Ht
                | ids w1 t w2 s r w' Hg Hlen E1 E2 E3 Hne Er].
  - left. split; [apply extends_refl | auto].
  - left. split; [apply extends_refl | auto].
  - left. split; [now apply (Hup (Raise e))|].
    rewrite (upload_media_raises env fuel (app ctx) (user ctx) (media p)
               (description p) (thumbnail p) w e) by now rewrite E1.
    auto.
  - left. split; [now apply (Hup Diverge)|]. left. now rewrite E1.
  - left. split.
    + eapply extends_trans; [apply (Hup (Ok ids)), E1 | apply (Htx w1 t), E2].
    + destruct (scheduled_at_raises (scheduled_at p) (scheduled_in p) w2 e)
        as [-> | ->]; [now rewrite E3 | auto 10 | auto 10].
  - left. split; [|auto 10].
    eapply extends_trans; [apply (Hup (Ok [])), E1 | apply (Htx w1 t), E2].
  - right. exists ids, t, s, w2. repeat split; try assumption.
    + eapply extends_trans; [apply (Hup (Ok ids)), E1 | apply (Htx w1 t), E2].
    + eapply extends_trans; [apply (Hup (Ok ids)), E1 | apply (Htx w1 t), E2].
    + eapply extends_trans; [apply (Hup (Ok ids)), E1 | apply (Htx w1 t), E2].
    + apply (upload_media_returns_ids env fuel (app ctx) (user ctx) (media p)
               (description p) (thumbnail p) w ids w1 E1).
Qed.

Lemma submitted_world_calls (env : Env) (a u : string) (request : PostRequest)
    (w : World) :
  post_status_calls (submitted_world env a u request w)
  = post_status_calls w ++ [PostStatus a u request].
Proof.
  unfold post_status_calls, submitted_world. cbn [trace advance log].
  now rewrite filter_app.
Qed.

Lemma report_frame (env : Env) (p : Params) (response : Response) (w : World) :
  extends is_report_event w (snd (report env p response w)).
Proof. now apply report_emits. Qed.

Lemma preparation_frame (w w' : World) :
  extends is_preparation w w' ->
  post_status_calls w' = post_status_calls w
  /\ deletions w' = deletions w
  /\ (tmp_status_file w = true -> tmp_status_file w' = true).
Proof.
  intros H. repeat split.
  - apply (extends_filter is_preparation); [now intros [] | exact H].
  - apply (extends_filter is_preparation); [now intros [] | exact H].
  - now apply H.
Qed.

(** X2. A run makes at most one status-creation call, and a run that
    returns has made exactly one. *)
Theorem post_submits_at_most_once (env : Env) (fuel : nat) (ctx : Context)
    (p : Params) (w : World) :
  let run := post env fuel ctx p w in
  exists l,
    post_status_calls (snd run) = post_status_calls w ++ l
    /\ (l = [] \/ exists req, l = [PostStatus (app ctx) (user ctx) req])
    /\ (fst run = Ok tt -> l <> []).
Proof.
  cbv zeta.
  pose proof (post_follows_a_path env fuel ctx p w) as Hpath.
  destruct (post env fuel ctx p w) as [r w']. cbn [fst snd] in *.
  destruct (post_digest _ _ _ _ _ _ _ Hpath)
    as [[Hx H] | (ids & t & s & w2 & Hx & _ & _ & _ & _ & Er)].
  - exists []. rewrite app_nil_r.
    destruct (preparation_frame w w' Hx) as (-> & _).
    repeat split; auto.
    intros ->. destruct H as [[H _] | H]; [discriminate|].
    repeat (destruct H as [H | H]; [discriminate|]). discriminate.
  - exists [PostStatus (app ctx) (user ctx) (request_of p ids t s)].
    pose proof (report_frame env p
                  (post_status_result env w2 (app ctx) (user ctx)
                     (request_of p ids t s))
                  (submitted_world env (app ctx) (user ctx)
                     (request_of p ids t s) w2)) as Hr.
    rewrite Er in Hr. cbn [snd] in Hr.
    destruct (preparation_frame w w2 Hx) as (<- & _).
    rewrite <- submitted_world_calls with (env := env).
    split; [apply (extends_filter is_report_event); [now intros [] | exact Hr]|].
    split; [right; eauto | discriminate].
Qed.

(** X3. Every status-creation call a run adds is made for the context's
    app and user and carries one media id per attached file, at most four
    of them, and a non-empty text or at least one media id; the remaining
    fields are the command's parameters, handed over unchanged. *)
Theorem post_request_invariant (env : Env) (fuel : nat) (ctx : Context)
    (p : Params) (w : World) (a u : string) (req : PostRequest) :
  In (PostStatus a u req) (post_status_calls (snd (post env fuel ctx p w))) ->
  In (PostStatus a u req) (post_status_calls w)
  \/ (a = app ctx /\ u = user ctx
      /\ List.length (req_media_ids req) = List.length (media p)
      /\ len (req_media_ids req) <= 4
      /\ (truthy_str (req_status req) = true \/ req_media_ids req <> [])
      /\ req_visibility req = visibility p
      /\ req_sensitive req = sensitive p
      /\ req_spoiler_text req = spoiler_text p
      /\ req_in_reply_to_id req = reply_to p
      /\ req_language req = language p
      /\ req_content_type req = content_type p
      /\ req_poll_options req = poll_option p
      /\ req_poll_expires_in req = poll_expires_in p
      /\ req_poll_multiple req = poll_multiple p
      /\ req_poll_hide_totals req = poll_hide_totals p).
Proof.
  pose proof (post_follows_a_path env fuel ctx p w) as Hpath.
  destruct (post env fuel ctx p w) as [r w']. cbn [fst snd] in *.
  destruct (post_digest _ _ _ _ _ _ _ Hpath)
    as [[Hx _] | (ids & t & s & w2 & Hx & Hl & Hlen & Hne & _ & Er)].
  - destruct (preparation_frame w w' Hx) as (-> & _). now left.
  - pose proof (report_frame env p
                  (post_status_result env w2 (app ctx) (user ctx)
                     (request_of p ids t s))
                  (submitted_world env (app ctx) (user ctx)
                     (request_of p ids t s) w2)) as Hr.
    rewrite Er in Hr. cbn [snd] in Hr.
    assert (Hc : post_status_calls w'
                 = post_status_calls
                     (submitted_world env (app ctx) (user ctx)
                        (request_of p ids t s) w2))
      by (apply (extends_filter is_report_event); [now intros [] | exact Hr]).
    rewrite Hc, submitted_world_calls.
    destruct (preparation_frame w w2 Hx) as (-> & _).
    intros Hin. apply in_app_or in Hin. destruct Hin as [Hin | [Hin | []]].
    + now left.
    + right. injection Hin as <- <- <-. cbn [request_of req_media_ids req_status
        req_visibility req_sensitive req_spoiler_text req_in_reply_to_id
        req_language req_content_type req_poll_options req_poll_expires_in
        req_poll_multiple req_poll_hide_totals].
      unfold len in *. rewrite Hl. repeat split; try reflexivity; assumption.
Qed.

Lemma post_request_invariant_witness :
  let p := params None [] [] None None None in
  let req := request_of p [] (Some "hello") None in
  In (PostStatus "app" "user" req) (post_status_calls new_year)
  \/ ("app" = app some_ctx /\ "user" = user some_ctx
      /\ List.length (req_media_ids req) = List.length (media p)
      /\ len (req_media_ids req) <= 4
      /\ (truthy_str (req_status req) = true \/ req_media_ids req <> [])
      /\ req_visibility req = visibility p
      /\ req_sensitive req = sensitive p
      /\ req_spoiler_text req = spoiler_text p
      /\ req_in_reply_to_id req = reply_to p
      /\ req_language req = language p
      /\ req_content_type req = content_type p
      /\ req_poll_options req = poll_option p
      /\ req_poll_expires_in req = poll_expires_in p
      /\ req_poll_multiple req = poll_multiple p
      /\ req_poll_hide_totals req = poll_hide_totals p).
Proof.
  apply (post_request_invariant (fixed_env true "hello" None) 61 some_ctx
           (params None [] [] None None None) new_year).
  vm_compute. left. reflexivity.
Defined.

Lemma extends_split (ok f q : event -> bool) (w w' : World) :
  (forall e, ok e = true -> f e = true -> q e = true) ->
  extends ok w w' ->
  exists evs,
    filter f (trace w') = filter f (trace w) ++ evs /\ forallb q evs = true.
Proof.
  intros Hq (_ & (evs & Ht & Hf) & _). exists (filter f evs).
  split; [now rewrite Ht, filter_app|].
  rewrite forallb_forall in *. intros e He. apply filter_In in He.
  destruct He as [He Hfe]. apply Hq; auto.
Qed.

(** X4. The network calls of a run come in three phases that do not mix:
    first the uploads, then the re-fetches of the processing waiter, then
    at most one status creation.  Nothing is uploaded once waiting has
    begun, and nothing is fetched once the status has been created. *)
Theorem post_network_order (env : Env) (fuel : nat) (ctx : Context)
    (p : Params) (w : World) :
  exists U G P,
    network_calls (snd (post env fuel ctx p w)) = network_calls w ++ U ++ G ++ P
    /\ forallb is_upload U = true
    /\ forallb is_get_media G = true
    /\ forallb is_post_status P = true
    /\ (List.length P <= 1)%nat.
Proof.
  assert (Hup : forall r1 w1,
             _upload_media env fuel (app ctx) (user ctx) (media p)
               (description p) (thumbnail p) w = (r1, w1) ->
             exists U G,
               network_calls w1 = network_calls w ++ U ++ G
               /\ forallb is_upload U = true /\ forallb is_get_media G = true).
  { intros r1 w1 E.
    destruct (upload_media_phases env fuel (app ctx) (user ctx) (media p)
                (description p) (thumbnail p) w) as (w0 & H1 & H2).
    rewrite E in H2. cbn [snd] in H2.
    destruct (extends_split is_upload_event is_network is_upload w w0
                ltac:(now intros []) H1) as (U & EU & HU).
    destruct (extends_split is_wait_event is_network is_get_media w0 w1
                ltac:(now intros []) H2) as (G & EG & HG).
    exists U, G. unfold network_calls. now rewrite EG, EU, <- app_assoc. }
  assert (Htx : forall w1 t w2,
             _get_status_text env (text p) (editor p) (media p) w1 = (Ok t, w2) ->
             network_calls w2 = network_calls w1).
  { intros w1 t w2 E. apply (extends_filter is_terminal); [now intros []|].
    pose proof (get_status_text_emits env (text p) (editor p) (media p) w1) as H.
    now rewrite E in H. }
  pose proof (post_follows_a_path env fuel ctx p w) as Hpath.
  destruct (post env fuel ctx p w) as [r w']. cbn [fst snd] in *.
  destruct Hpath as [Hg | Hg Hlen | e w1 Hg Hlen E1 | w1 Hg Hlen E1
                    | ids w1 t w2 e Hg Hlen E1 E2 E3
                    | w1 t w2 s Hg Hlen E1 E2 E3 Ht
                    | ids w1 t w2 s r w' Hg Hlen E1 E2 E3 Hne Er].
  - exists [], [], []. rewrite !app_nil_r. repeat split; auto.
  - exists [], [], []. rewrite !app_nil_r. repeat split; auto.
  - destruct (Hup _ _ E1) as (U & G & -> & HU & HG).
    exists U, G, []. rewrite !app_nil_r. repeat split; auto.
  - destruct (Hup _ _ E1) as (U & G & -> & HU & HG).
    exists U, G, []. rewrite !app_nil_r. repeat split; auto.
  - destruct (Hup _ _ E1) as (U & G & E & HU & HG).
    exists U, G, []. rewrite (Htx _ _ _ E2), E, !app_nil_r. repeat split; auto.
  - destruct (Hup _ _ E1) as (U & G & E & HU & HG).
    exists U, G, []. rewrite (Htx _ _ _ E2), E, !app_nil_r. repeat split; auto.
  - destruct (Hup _ _ E1) as (U & G & E & HU & HG).
    exists U, G, [PostStatus (app ctx) (user ctx) (request_of p ids t s)].
    pose proof (report_frame env p
                  (post_status_result env w2 (app ctx) (user ctx)
                     (request_of p ids t s))
                  (submitted_world env (app ctx) (user ctx)
                     (request_of p ids t s) w2)) as Hr.
    unfold submitted_world in Hr. rewrite Er in Hr. cbn [snd] in Hr.
    unfold network_calls at 1.
    rewrite (extends_filter is_report_event is_network _ _
               ltac:(now intros []) Hr).
    cbn [trace advance log]. rewrite filter_app.
    fold (network_calls w2). rewrite (Htx _ _ _ E2), E. cbn [filter is_network].
    rewrite <- !app_assoc. repeat split; auto.
Qed.

(** X5. When [--json] is not given and the server answers every status
    creation with a response that has neither a "scheduled_at" nor a "url"
    entry, the command never returns and never deletes the scratch file,
    whether or not the status has been created by then. *)
Theorem post_fails_on_keyless_response (env : Env) (fuel : nat)
    (ctx : Context) (p : Params) (w : World) :
  json p = false ->
  (forall w a u r,
      dict_get (resp_json (post_status_result env w a u r)) "scheduled_at" = None
      /\ dict_get (resp_json (post_status_result env w a u r)) "url" = None) ->
  fst (post env fuel ctx p w) <> Ok tt
  /\ deletions (snd (post env fuel ctx p w)) = deletions w.
Proof.
  intros Hj Hkeys.
  pose proof (post_follows_a_path env fuel ctx p w) as Hpath.
  pose proof (post_cleans env fuel ctx p w) as Hclean.
  destruct (post env fuel ctx p w) as [r w']. cbn [fst snd] in *.
  assert (Hr : r <> Ok tt).
  { intros ->.
    destruct (post_digest _ _ _ _ _ _ _ Hpath)
      as [[_ H] | (ids & t & s & w2 & _ & _ & _ & _ & _ & Er)].
    - destruct H as [[H _] | H]; [discriminate|].
      repeat (destruct H as [H | H]; [discriminate|]). discriminate.
    - unfold report in Er. rewrite Hj in Er.
      destruct (Hkeys w2 (app ctx) (user ctx) (request_of p ids t s))
        as [K1 K2].
      rewrite K1, K2 in Er. unfold bind, raise in Er. discriminate Er. }
  split; [exact Hr|].
  destruct r as [[] | e | ]; [congruence | |];
    (apply (extends_filter no_delete); [now intros [] | exact Hclean]).
Qed.

Lemma post_fails_on_keyless_response_witness :
  let env := with_response (fixed_env true "hello" None)
               {| resp_text := "{}"; resp_json := [] |} in
  let run := post env 61 some_ctx (params None [] [] None None None) new_year in
  fst run <> Ok tt /\ deletions (snd run) = deletions new_year.
Proof.
  apply (post_fails_on_keyless_response
           (with_response (fixed_env true "hello" None)
              {| resp_text := "{}"; resp_json := [] |})
           61 some_ctx (params None [] [] None None None) new_year).
  - reflexivity.
  - intros w a u r. split; reflexivity.
Defined.



Lemma get_status_text_editor (env : Env) (text editor : option string)
    (media : list File) (w : World) :
  stdin_isatty env = true ->
  truthy_str editor = true ->
  _get_status_text env text editor media w
  = (Ok (Some (editor_result env w (str_of editor) text)),
     set_tmp true
       (advance (Z.of_N (call_latency env w))
          (log (EditorInput (str_of editor) text) w))).
Proof.
  intros Htty Hed. unfold _get_status_text, isatty.
  rewrite bind_ret, Htty, andb_false_r, bind_ret, Hed. reflexivity.
Qed.

(** X7. On a terminal, with an editor, a run that gets past the upload of
    its media leaves the scratch file behind exactly when it fails: the
    draft written in the editor survives every later failure (empty post,
    scheduling error, failure while printing the result) and is deleted
    only when the command returns. *)
Theorem post_keeps_draft_on_failure (env : Env) (fuel : nat) (ctx : Context)
    (p : Params) (w : World) (ids : list string) :
  stdin_isatty env = true ->
  truthy_str (editor p) = true ->
  len (media p) <= 4 ->
  fst (_upload_media env fuel (app ctx) (user ctx) (media p) (description p)
         (thumbnail p) w) = Ok ids ->
  match post env fuel ctx p w with
  | (Ok _, w') => tmp_status_file w' = false
  | (_, w') =>
      tmp_status_file w' = true
      /\ In (EditorInput (str_of (editor p)) (text p)) (trace w')
  end.
Proof.
  intros Htty Hed Hlen Hup.
  pose proof (post_follows_a_path env fuel ctx p w) as Hpath.
  destruct (post env fuel ctx p w) as [r w']. cbn [fst snd] in *.
  assert (Hedit : forall w1 t w2,
             _get_status_text env (text p) (editor p) (media p) w1 = (Ok t, w2) ->
             tmp_status_file w2 = true
             /\ In (EditorInput (str_of (editor p)) (text p)) (trace w2)).
  { intros w1 t w2 E.
    rewrite (get_status_text_editor env _ _ _ w1 Htty Hed) in E.
    injection E as _ <-. split; [reflexivity|].
    cbn [trace set_tmp advance log]. apply in_or_app. right. now left. }
  destruct Hpath as [Hg | Hg Hl | e w1 Hg Hl E1 | w1 Hg Hl E1
                    | ids' w1 t w2 e Hg Hl E1 E2 E3
                    | w1 t w2 s Hg Hl E1 E2 E3 Ht
                    | ids' w1 t w2 s r w' Hg Hl E1 E2 E3 Hne Er].
  - rewrite Hed, Htty in Hg. discriminate.
  - lia.
  - rewrite E1 in Hup. discriminate.
  - rewrite E1 in Hup. discriminate.
  - exact (Hedit _ _ _ E2).
  - exact (Hedit _ _ _ E2).
  - destruct (Hedit _ _ _ E2) as [Htmp Hin].
    pose proof (report_cleans env p
                  (post_status_result env w2 (app ctx) (user ctx)
                     (request_of p ids' t s))
                  (advance (Z.of_N (call_latency env w2))
                     (log (PostStatus (app ctx) (user ctx)
                             (request_of p ids' t s)) w2))) as Hc.
    rewrite Er in Hc.
    destruct r as [[] | e | ]; [now destruct Hc | |];
      (split; [now apply Hc|];
       destruct Hc as (_ & (evs & -> & _) & _); cbn [trace advance log];
       apply in_or_app; left; apply in_or_app; left; exact Hin).
Qed.

Lemma post_keeps_draft_on_failure_witness :
  match post (fixed_env true EmptyString None) 61 some_ctx
          (params None [] [] (Some "vi") None None) new_year with
  | (Ok _, w') => tmp_status_file w' = false
  | (_, w') => tmp_status_file w' = true /\ In (EditorInput "vi" None) (trace w')
  end.
Proof.
  apply (post_keeps_draft_on_failure (fixed_env true EmptyString None) 61
           some_ctx (params None [] [] (Some "vi") None None) new_year []);
    [reflexivity | reflexivity | vm_compute; discriminate | reflexivity].
Defined.

(** ** What the processing waiter leaves alone *)

(** X10. The processing waiter only prints, re-fetches and sleeps: it
    uploads nothing, creates no status, does not delete the scratch file,
    and the clock never goes back. *)
Theorem wait_touches_nothing_else (env : Env) (fuel : nat) (a u : string)
    (batch : list Media) (w : World) :
  let w' := snd (_wait_until_all_processed env fuel a u batch w) in
  uploads w' = uploads w
  /\ post_status_calls w' = post_status_calls w
  /\ deletions w' = deletions w
  /\ (tmp_status_file w = true -> tmp_status_file w' = true)
  /\ clock w <= clock w'.
Proof.
  pose proof (wait_until_all_processed_emits env a u fuel batch w) as H.
  cbv zeta. repeat split;
    try (apply (extends_filter is_wait_event); [now intros [] | exact H]);
    apply H. reflexivity.
Qed.

(** ** The text resolver *)

(** X11. Text given on the command line is used as it is, without any
    interaction, unless an editor is requested on a terminal; and on a
    terminal without an editor, attaching media suppresses the prompt, so
    that a post of media alone keeps its (absent) text.  In both cases the
    world is left untouched. *)
Theorem status_text_without_interaction (env : Env) (text editor : option string)
    (media : list File) (w : World) :
  truthy_str text = true
  /\ (stdin_isatty env = false \/ truthy_str editor = false)
  \/ stdin_isatty env = true /\ truthy_str editor = false /\ media <> [] ->
  _get_status_text env text editor media w = (Ok text, w).
Proof.
  unfold _get_status_text, isatty. rewrite bind_ret.
  intros [[Ht [Htty | Hed]] | (Htty & Hed & Hm)].
  - destruct text as [[|c t]|]; try discriminate. rewrite Htty. reflexivity.
  - destruct text as [[|c t]|]; try discriminate. rewrite Hed.
    destruct (stdin_isatty env); reflexivity.
  - rewrite Htty, Hed. destruct media; [congruence|].
    destruct text as [[|c t]|]; reflexivity.
Qed.

Lemma status_text_without_interaction_witness :
  _get_status_text (fixed_env true "typed" None) None None
    [ {| name := "1.png" |} ] new_year
  = (Ok None, new_year).
Proof.
  apply status_text_without_interaction.
  right. repeat split. discriminate.
Defined.

Lemma scheduled_at_without_duration (sa : option string) (si : option Z)
    (w : World) :
  truthy_int si = false ->
  exists s, _get_scheduled_at sa si w = (Ok s, w).
Proof.
  intros Hi. unfold _get_scheduled_at.
  destruct (truthy_str sa); [now exists sa|].
  destruct si as [d|]; [rewrite Hi|]; now exists None.
Qed.

(** X12. Blank piped input is an empty post: when standard input is not a
    terminal, no text and no media are given, and what is piped in
    consists of whitespace characters only (blanks, tabs, line ends, or
    the other characters Python's [str.isspace] accepts, such as the
    no-break space), the command reads standard input and then
    fails with the "empty post" usage error, having done nothing else (no
    relative schedule being asked for). *)
Theorem piped_blank_input_is_empty_post (env : Env) (fuel : nat) (ctx : Context)
    (p : Params) (w : World) :
  stdin_isatty env = false ->
  truthy_str (editor p) = false ->
  truthy_str (text p) = false ->
  media p = [] ->
  truthy_int (scheduled_in p) = false ->
  blank (stdin_read env w) ->
  exists w',
    post env fuel ctx p w
    = (Raise (ClickException "You must specify either text or media to post."),
       w')
    /\ trace w' = trace w ++ [StdinRead].
Proof.
  intros Htty Hed Ht Hm Hsi Hblank. unfold post, isatty.
  rewrite bind_ret, Hed. cbn [andb].
  replace (len (media p) >? 4) with false by (now rewrite Hm).
  assert (E1 : _upload_media env fuel (app ctx) (user ctx) (media p)
                 (description p) (thumbnail p) w = (Ok [], w))
    by (now rewrite Hm).
  rewrite (bind_ok _ _ _ _ _ E1).
  assert (E2 : _get_status_text env (text p) (editor p) (media p) w
               = (Ok (Some EmptyString),
                  advance (Z.of_N (call_latency env w)) (log StdinRead w))).
  { unfold _get_status_text, isatty. rewrite bind_ret, Ht, Htty.
    cbn [negb andb]. unfold sys_stdin_read, blocking, bind, ret.
    now rewrite (rstrip_blank _ Hblank). }
  rewrite (bind_ok _ _ _ _ _ E2).
  destruct (scheduled_at_without_duration (scheduled_at p) (scheduled_in p)
              (advance (Z.of_N (call_latency env w)) (log StdinRead w)) Hsi)
    as (s & E3).
  rewrite (bind_ok _ _ _ _ _ E3). cbn [truthy_str truthy_list negb andb].
  eexists. split; reflexivity.
Qed.

Lemma piped_blank_input_is_empty_post_witness :
  exists w',
    post (with_stdin (fixed_env false "typed" None) (utf8 [32; 194; 160; 9; 10]))
      61 some_ctx (params None [] [] None None None) new_year
    = (Raise (ClickException "You must specify either text or media to post."),
       w')
    /\ trace w' = trace new_year ++ [StdinRead].
Proof.
  apply piped_blank_input_is_empty_post; try reflexivity.
  exists [utf8 [32]; utf8 [194; 160]; utf8 [9]; utf8 [10]].
  split; [|reflexivity].
  repeat constructor; apply is_space_In; reflexivity.
Defined.

(** ** The scheduling resolver *)

Lemma in_range_floor (t : Z) :
  in_range t = in_range (t / US_PER_SECOND * US_PER_SECOND).
Proof.
  unfold in_range, MAXORDINAL, US_PER_DAY, US_PER_SECOND.
  pose proof (Z.div_mod t 1000000 ltac:(lia)).
  pose proof (Z.mod_pos_bound t 1000000 ltac:(lia)).
  destruct (Z.leb_spec 0 t), (Z.leb_spec 0 (t / 1000000 * 1000000)),
    (Z.ltb_spec t (3652059 * (86400 * 1000000))),
    (Z.ltb_spec (t / 1000000 * 1000000) (3652059 * (86400 * 1000000)));
    try reflexivity; lia.
Qed.

Lemma floor_shift (t d : Z) :
  (t + d * US_PER_SECOND) / US_PER_SECOND = t / US_PER_SECOND + d.
Proof. unfold US_PER_SECOND. apply Z.div_add. lia. Qed.

Lemma epoch_shift (c : Z) :
  (c + EPOCH_TICKS) / US_PER_SECOND
  = c / US_PER_SECOND + (EPOCH_ORDINAL - 1) * 86400.
Proof.
  unfold EPOCH_TICKS, US_PER_DAY.
  replace ((EPOCH_ORDINAL - 1) * (86400 * US_PER_SECOND))
    with ((EPOCH_ORDINAL - 1) * 86400 * US_PER_SECOND) by ring.
  apply floor_shift.
Qed.

(** The relative schedule, computed from the whole second the clock is in. *)
Lemma scheduled_at_by_second (sa : option string) (d : Z) (w : World) :
  truthy_str sa = false ->
  d <> 0 ->
  fst (_get_scheduled_at sa (Some d) w)
  = let q := clock w / US_PER_SECOND + (EPOCH_ORDINAL - 1) * 86400 in
    if in_range (q * US_PER_SECOND) then
      match timedelta_seconds d with
      | Ok _ =>
          if in_range ((q + d) * US_PER_SECOND)
          then Ok (Some (isoformat {| ticks := (q + d) * US_PER_SECOND;
                                      utcoffset := Some 0 |}))
          else Raise OverflowError
      | Raise e => Raise e
      | Diverge => Diverge
      end
    else Raise (ValueError "year is out of range").
Proof.
  intros Hsa Hd.
  assert (H1 : in_range (clock w + EPOCH_TICKS)
               = in_range ((clock w / US_PER_SECOND + (EPOCH_ORDINAL - 1) * 86400)
                           * US_PER_SECOND))
    by (now rewrite in_range_floor, epoch_shift).
  assert (H2 : in_range (clock w + EPOCH_TICKS + d * US_PER_SECOND)
               = in_range ((clock w / US_PER_SECOND + (EPOCH_ORDINAL - 1) * 86400
                            + d) * US_PER_SECOND))
    by (now rewrite in_range_floor, floor_shift, epoch_shift).
  assert (H3 : clock w + EPOCH_TICKS + d * US_PER_SECOND
               - (clock w + EPOCH_TICKS + d * US_PER_SECOND) mod US_PER_SECOND
               = (clock w / US_PER_SECOND + (EPOCH_ORDINAL - 1) * 86400 + d)
                 * US_PER_SECOND)
    by (now rewrite floor_to_second, epoch_shift).
  unfold _get_scheduled_at. rewrite Hsa. cbn [truthy_int].
  replace (d =? 0) with false by (symmetry; now apply Z.eqb_neq).
  cbn [negb]. rewrite bind_time. cbv zeta.
  unfold now_utc, timedelta_seconds, add, bind, lift, ret.
  rewrite H1.
  destruct (in_range ((clock w / US_PER_SECOND + (EPOCH_ORDINAL - 1) * 86400)
                      * US_PER_SECOND)); [|reflexivity].
  destruct ((-999999999 <=? d / 86400) && (d / 86400 <=? 999999999));
    [|reflexivity].
  cbn [ticks td_us utcoffset]. rewrite H2.
  destruct (in_range ((clock w / US_PER_SECOND + (EPOCH_ORDINAL - 1) * 86400 + d)
                      * US_PER_SECOND)); [|reflexivity].
  unfold replace_microsecond_0, microsecond. cbn [ticks utcoffset fst].
  now rewrite H3.
Qed.

(** X14. The scheduling resolver drops sub-second precision: its outcome,
    a timestamp or an error, depends on the clock only through the whole
    second the clock is in. *)
Theorem schedule_ignores_subsecond (sa : option string) (si : option Z)
    (w1 w2 : World) :
  clock w1 / US_PER_SECOND = clock w2 / US_PER_SECOND ->
  fst (_get_scheduled_at sa si w1) = fst (_get_scheduled_at sa si w2).
Proof.
  intros Hsec.
  destruct (truthy_str sa) eqn:Hsa.
  { unfold _get_scheduled_at. now rewrite Hsa. }
  destruct si as [d|].
  2:{ unfold _get_scheduled_at. now rewrite Hsa. }
  destruct (Z.eq_dec d 0) as [-> | Hd].
  { unfold _get_scheduled_at. now rewrite Hsa. }
  rewrite !scheduled_at_by_second by assumption. now rewrite Hsec.
Qed.

Lemma schedule_ignores_subsecond_witness :
  fst (_get_scheduled_at None (Some 300) new_year)
  = fst (_get_scheduled_at None (Some 300) (advance 499999 new_year)).
Proof.
  apply schedule_ignores_subsecond. reflexivity.
Defined.

(** X15. The scheduling resolver does not check the sign of the relative
    duration: for a negative duration that stays within the representable
    datetimes it returns, without complaint, the timestamp of a whole
    second that lies in the past. *)
Theorem schedule_accepts_negative_duration (D : Z) (w : World) (now : datetime) :
  D < 0 ->
  now_utc (clock w) = Ok now ->
  in_range (ticks now + D * US_PER_SECOND) = true ->
  let dt := {| ticks := (ticks now / US_PER_SECOND + D) * US_PER_SECOND;
               utcoffset := Some 0 |} in
  fst (_get_scheduled_at None (Some D) w) = Ok (Some (isoformat dt))
  /\ ticks dt < ticks now.
Proof.
  intros HD Hnow Hr dt. unfold now_utc in Hnow.
  destruct (in_range (clock w + EPOCH_TICKS)) eqn:Hin; [|discriminate].
  injection Hnow as <-. cbn [ticks] in *. split.
  - rewrite scheduled_at_by_second by (reflexivity || lia). cbv zeta.
    rewrite <- epoch_shift, <- in_range_floor, Hin.
    rewrite in_range_floor, floor_shift in Hr. rewrite Hr.
    unfold timedelta_seconds.
    replace ((-999999999 <=? D / 86400) && (D / 86400 <=? 999999999)) with true;
      [reflexivity|].
    symmetry. apply andb_true_intro.
    unfold in_range in Hin, Hr. apply andb_prop in Hin, Hr.
    destruct Hin as [_ Hin2], Hr as [Hr1 _].
    apply Z.ltb_lt in Hin2. apply Z.leb_le in Hr1.
    pose proof (Z.div_mod D 86400 ltac:(lia)).
    pose proof (Z.mod_pos_bound D 86400 ltac:(lia)).
    pose proof (Z.div_mod (clock w + EPOCH_TICKS) 1000000 ltac:(lia)).
    pose proof (Z.mod_pos_bound (clock w + EPOCH_TICKS) 1000000 ltac:(lia)).
    unfold MAXORDINAL, US_PER_DAY, US_PER_SECOND in *.
    split; apply Z.leb_le; lia.
  - unfold dt. cbn [ticks]. unfold US_PER_SECOND.
    pose proof (Z.div_mod (clock w + EPOCH_TICKS) 1000000 ltac:(lia)).
    pose proof (Z.mod_pos_bound (clock w + EPOCH_TICKS) 1000000 ltac:(lia)).
    lia.
Qed.

Lemma schedule_accepts_negative_duration_witness :
  fst (_get_scheduled_at None (Some (-300)) new_year)
  = Ok (Some "2023-12-31T23:55:00+00:00").
Proof.
  exact (proj1 (schedule_accepts_negative_duration (-300) new_year
                  {| ticks := 1704067200500000 + EPOCH_TICKS; utcoffset := Some 0 |}
                  eq_refl eq_refl eq_refl)).
Defined.

(** ** The uploader *)

Lemma do_upload_exact (env : Env) (a u : string) (file : File)
    (d : option string) (t : option File) (w : World) :
  _do_upload env a u file d t w
  = (Ok (upload_media_result env
           (log (Echo ("Uploading media: " ++ name file)%string) w)
           a u file d t),
     advance
       (Z.of_N (call_latency env
                  (log (Echo ("Uploading media: " ++ name file)%string) w)))
       (log (UploadMedia a u file d t)
          (log (Echo ("Uploading media: " ++ name file)%string) w))).
Proof. reflexivity. Qed.

Lemma upload_loop_trace (env : Env) (a u : string) (descs : list string)
    (thumbs : list File) (media : list File) :
  forall idx acc w,
    exists recs w',
      upload_loop env a u idx media descs thumbs acc w = (Ok (acc ++ recs), w')
      /\ List.length recs = List.length media
      /\ trace w' = trace w ++ spec_upload_trace a u idx media descs thumbs
      /\ ((forall w a u f d t,
              truthy_str (media_url (upload_media_result env w a u f d t)) = true) ->
          forallb (fun m => truthy_str (media_url m)) recs = true).
Proof.
  induction media as [|file rest IH]; intros idx acc w; cbn [upload_loop].
  - exists [], w. rewrite !app_nil_r. repeat split; reflexivity.
  - rewrite (bind_ok _ _ _ _ _ (guarded_getitem strip descs idx w)).
    rewrite (bind_ok _ _ _ _ _ (guarded_getitem (fun t => t) thumbs idx w)).
    replace (option_map (fun t : File => t) (nth_error thumbs idx))
      with (nth_error thumbs idx) by now destruct (nth_error thumbs idx).
    rewrite (bind_ok _ _ _ _ _
               (do_upload_exact env a u file
                  (option_map strip (nth_error descs idx))
                  (nth_error thumbs idx) w)).
    match goal with
    | |- context [upload_loop env a u (S idx) rest descs thumbs (acc ++ [?r]) ?w1] =>
        destruct (IH (S idx) (acc ++ [r]) w1) as (recs & w' & E & Hl & Ht & Hf);
        exists (r :: recs), w'
    end.
    split; [|split; [|split]].
    + rewrite E. now rewrite <- app_assoc.
    + cbn [List.length]. now rewrite Hl.
    + rewrite Ht. cbn [trace advance log spec_upload_trace].
      rewrite <- !app_assoc. reflexivity.
    + intros Hfast. cbn [forallb]. now rewrite Hfast, (Hf Hfast).
Qed.

(** X16. When the server answers every upload with a record that already
    carries a URL, the uploader returns one id per file and has done
    nothing but announce and upload each file in turn: no waiting message,
    no re-fetch, no sleep. *)
Theorem upload_fast_path (env : Env) (fuel : nat) (a u : string)
    (media : list File) (description : list string) (thumbnail : list File)
    (w : World) :
  (forall w a u f d t,
      truthy_str (media_url (upload_media_result env w a u f d t)) = true) ->
  exists ids w',
    _upload_media env fuel a u media description thumbnail w = (Ok ids, w')
    /\ List.length ids = List.length media
    /\ trace w' = trace w ++ spec_upload_trace a u 0 media description thumbnail.
Proof.
  intros Hfast.
  destruct (upload_loop_trace env a u description thumbnail media 0%nat [] w)
    as (batch & w1 & E & Hl & Ht & Hf).
  change ([] ++ batch) with batch in E.
  exists (map media_id batch), w1. split; [|split].
  - unfold _upload_media. rewrite !py_or_nil_r, (bind_ok _ _ _ _ _ E).
    unfold _wait_until_all_processed. now rewrite (Hf Hfast).
  - now rewrite length_map.
  - exact Ht.
Qed.

Lemma upload_fast_path_witness :
  exists ids w',
    _upload_media (with_fast_uploads (fixed_env false "typed" None)) 61
      "app" "user" [ {| name := "1.png" |}; {| name := "2.png" |} ]
      [ " a cat " ] [] new_year = (Ok ids, w')
    /\ List.length ids = 2%nat
    /\ trace w'
       = trace new_year
         ++ [ Echo "Uploading media: 1.png";
              UploadMedia "app" "user" {| name := "1.png" |} (Some "a cat") None;
              Echo "Uploading media: 2.png";
              UploadMedia "app" "user" {| name := "2.png" |} None None ].
Proof.
  apply (upload_fast_path (with_fast_uploads (fixed_env false "typed" None)) 61
           "app" "user" [ {| name := "1.png" |}; {| name := "2.png" |} ]
           [ " a cat " ] [] new_year).
  reflexivity.
Defined.

Lemma upload_media_uploads (env : Env) (fuel : nat) (a u : string)
    (media : list File) (descs : list string) (thumbs : list File) (w : World) :
  uploads (snd (_upload_media env fuel a u media descs thumbs w))
  = uploads w ++ spec_pairing a u 0 media descs thumbs.
Proof.
  destruct (upload_media_unfold env fuel a u media descs thumbs w)
    as (batch & w1 & _ & _ & Hu & _ & E).
  rewrite E, <- Hu. unfold uploads.
  apply (extends_filter is_wait_event); [now intros []|].
  apply (emits_bind is_wait_event
           (_wait_until_all_processed env fuel a u batch)
           (fun _ => ret (map media_id batch))
           (wait_until_all_processed_emits env a u fuel batch)
           (fun _ => emits_ret is_wait_event _)).
Qed.

Lemma spec_pairing_firstn (a u : string) (descs : list string)
    (thumbs : list File) (media : list File) :
  forall idx n,
    (idx + List.length media <= n)%nat ->
    spec_pairing a u idx media descs thumbs
    = spec_pairing a u idx media (firstn n descs) (firstn n thumbs).
Proof.
  induction media as [|file rest IH]; intros idx n Hn; [reflexivity|].
  cbn [spec_pairing List.length] in *.
  rewrite !nth_error_firstn.
  destruct (Nat.ltb_spec idx n); [|lia].
  f_equal. apply IH. lia.
Qed.

(** X17. Descriptions and thumbnails beyond the number of media files are
    never used: the uploads made are those made when each of the two
    lists is cut to the length of the media list. *)
Theorem upload_ignores_surplus (env : Env) (fuel : nat) (a u : string)
    (media : list File) (description : list string) (thumbnail : list File)
    (w : World) :
  uploads (snd (_upload_media env fuel a u media description thumbnail w))
  = uploads (snd (_upload_media env fuel a u media
                    (firstn (List.length media) description)
                    (firstn (List.length media) thumbnail) w)).
Proof.
  rewrite !upload_media_uploads. f_equal.
  apply spec_pairing_firstn. apply le_n.
Qed.

(** X18. When the command ends in the media-processing timeout, every
    attached file has been uploaded (the uploads are exactly those of the
    specified pairing, and there is at least one) and no status has been
    created: the uploaded media stay on the server without a post. *)
Theorem post_timeout_leaves_uploads (env : Env) (fuel : nat) (ctx : Context)
    (p : Params) (w : World) :
  (forall s m, parse_datetime env s <> Raise (ClickException m)) ->
  fst (post env fuel ctx p w)
  = Raise (ClickException
             "Media not processed by server after 60 seconds. Aborting.") ->
  uploads (snd (post env fuel ctx p w))
  = uploads w
    ++ spec_pairing (app ctx) (user ctx) 0 (media p) (description p) (thumbnail p)
  /\ media p <> []
  /\ post_status_calls (snd (post env fuel ctx p w)) = post_status_calls w.
Proof.
  intros Hp.
  pose proof (post_follows_a_path env fuel ctx p w) as Hpath.
  destruct (post env fuel ctx p w) as [r w']. cbn [fst snd] in *. intros ->.
  remember (Raise (ClickException
                     "Media not processed by server after 60 seconds. Aborting."))
    as r eqn:Hr.
  destruct Hpath as [Hg | Hg Hlen | e w1 Hg Hlen E1 | w1 Hg Hlen E1
                    | ids w1 t w2 e Hg Hlen E1 E2 E3
                    | w1 t w2 s Hg Hlen E1 E2 E3 Ht
                    | ids w1 t w2 s r w' Hg Hlen E1 E2 E3 Hne Er];
    try discriminate Hr.
  - pose proof (upload_media_uploads env fuel (app ctx) (user ctx) (media p)
                  (description p) (thumbnail p) w) as Hu.
    pose proof (upload_media_prepares env fuel (app ctx) (user ctx) (media p)
                  (description p) (thumbnail p) w) as Hx.
    rewrite E1 in Hu, Hx. cbn [snd] in Hu, Hx.
    split; [exact Hu|]. split; [|now apply preparation_frame].
    intros Hm. rewrite Hm in E1. discriminate E1.
  - exfalso.
    pose proof (scheduled_at_raises (scheduled_at p) (scheduled_in p) w2 e) as H.
    rewrite E3 in H. destruct (H eq_refl) as [-> | ->]; discriminate Hr.
  - exfalso. subst r.
    match type of Er with
    | report env p ?resp ?w4 = _ =>
        destruct (report_outcome env p resp w4)
          as [H | (_ & [(_ & _ & H) | (s0 & _ & [[_ H] | (e & He & H)])])];
          rewrite Er in H; cbn [fst] in H; try discriminate H
    end.
    injection H as <-. now apply Hp in He.
Qed.

Lemma post_timeout_leaves_uploads_witness :
  let run := post (fixed_env false EmptyString None) 61 some_ctx
               (params (Some "hi") [ {| name := "1.png" |} ] [ " a cat " ]
                  None None None) new_year in
  uploads (snd run)
  = uploads new_year
    ++ [ UploadMedia "app" "user" {| name := "1.png" |} (Some "a cat") None ]
  /\ media (params (Some "hi") [ {| name := "1.png" |} ] [ " a cat " ]
              None None None) <> []
  /\ post_status_calls (snd run) = post_status_calls new_year.
Proof.
  apply (post_timeout_leaves_uploads (fixed_env false EmptyString None) 61
           some_ctx
           (params (Some "hi") [ {| name := "1.png" |} ] [ " a cat " ]
              None None None) new_year).
  - discriminate.
  - vm_compute. reflexivity.
Defined.
